(** * ASN.1 utilities of the proxmark3 client (client/crypto/asn1utils.c)

    A shallow embedding of the signature decomposer
    [ecdsa_asn1_get_signature], the tag registry ([asn1_tags],
    [asn1_get_tag]), the value formatters and the tree-dump callback
    [print_cb], followed by the properties stated for them.

    Conventions.  Bytes and machine integers are [Z]; a conversion to a
    C type is written with its wrap-around ([to_uint], [to_int],
    [to_ulong], [to_size_t]).  The target is LP64: [int] and [unsigned]
    have 32 bits, [unsigned long] and [size_t] 64.  A pointer into a
    buffer is the buffer (a [list Z]) with an offset; a pointer that may
    be null is an [option]. *)

From Stdlib Require Import ZArith List Lia Bool String Ascii.
From Stdlib Require Import DecimalString HexadecimalString.
From Equations Require Import Equations.
Import ListNotations.
Local Open Scope Z_scope.

(** ** Machine integers *)

Definition UINT_MOD : Z := 2 ^ 32.
Definition INT_MAX : Z := 2 ^ 31 - 1.
Definition ULONG_MOD : Z := 2 ^ 64.
Definition SIZE_MOD : Z := 2 ^ 64.
Definition PTRDIFF_MAX : Z := 2 ^ 63 - 1.

Definition to_ushort (x : Z) : Z := x mod 2 ^ 16.
Definition to_uint (x : Z) : Z := x mod UINT_MOD.
Definition to_ulong (x : Z) : Z := x mod ULONG_MOD.
Definition to_size_t (x : Z) : Z := x mod SIZE_MOD.

(** Conversion to [int]: the value modulo 2^32 taken in
    [-2^31, 2^31). *)
Definition to_int (x : Z) : Z := (x + 2 ^ 31) mod UINT_MOD - 2 ^ 31.

(** [buf[k]] for a buffer held as a list; outside the list the model
    reads 0 (the C read is undefined there). *)
Definition rd (buf : list Z) (k : Z) : Z :=
  if k <? 0 then 0 else nth (Z.to_nat k) buf 0.

(** ** Results of the mbedtls calls

    An mbedtls function returns 0 and fills its out-parameters, or
    returns a negative error code. *)

Inductive result (A : Type) : Type :=
| Ok (a : A)
| Err (code : Z).
Arguments Ok {A} a.
Arguments Err {A} code.

Module Mbedtls.

(** Modelled from the spec: the constants of mbedtls/asn1.h and
    mbedtls/bignum.h are not among the sources.  "SEQUENCE (constructed,
    universal class, tag number 16)" is the tag byte 0x20 | 0x10 and
    INTEGER "a tag byte 0x02"; the error codes are the negative values
    of the mbedtls headers, of which the properties below use only that
    they are negative. *)
Definition MBEDTLS_ASN1_INTEGER : Z := 0x02.
Definition MBEDTLS_ASN1_SEQUENCE : Z := 0x10.
Definition MBEDTLS_ASN1_CONSTRUCTED : Z := 0x20.

Definition MBEDTLS_ERR_ASN1_OUT_OF_DATA : Z := - 0x0060.
Definition MBEDTLS_ERR_ASN1_UNEXPECTED_TAG : Z := - 0x0062.
Definition MBEDTLS_ERR_ASN1_INVALID_LENGTH : Z := - 0x0064.
Definition MBEDTLS_ERR_MPI_BUFFER_TOO_SMALL : Z := - 0x0008.

(** Modelled from the spec: the check that ends
    [mbedtls_asn1_get_len], "premature end of buffer": a length larger
    than what remains between the cursor and [end] is OUT_OF_DATA. *)
Definition check_len (p e len : Z) : result (Z * Z) :=
  if len >? e - p then Err MBEDTLS_ERR_ASN1_OUT_OF_DATA else Ok (p, len).

(** Modelled from the spec: [mbedtls_asn1_get_len] (mbedtls,
    library/asn1parse.c) is not among the sources.  It reads the "DER
    length prefix" at the cursor [p] of a buffer that ends at [e]: one
    byte below 0x80, or 0x81..0x84 followed by that many big-endian
    length bytes; the length must fit in what remains ("premature end
    of buffer" otherwise).  The result is the advanced cursor and the
    length. *)
Definition mbedtls_asn1_get_len (buf : list Z) (p e : Z) : result (Z * Z) :=
  if e - p <? 1 then Err MBEDTLS_ERR_ASN1_OUT_OF_DATA
  else if Z.land (rd buf p) 0x80 =? 0 then check_len (p + 1) e (rd buf p)
  else
    match Z.land (rd buf p) 0x7F with
    | 1 =>
        if e - p <? 2 then Err MBEDTLS_ERR_ASN1_OUT_OF_DATA
        else check_len (p + 2) e (rd buf (p + 1))
    | 2 =>
        if e - p <? 3 then Err MBEDTLS_ERR_ASN1_OUT_OF_DATA
        else check_len (p + 3) e
               (Z.lor (Z.shiftl (rd buf (p + 1)) 8) (rd buf (p + 2)))
    | 3 =>
        if e - p <? 4 then Err MBEDTLS_ERR_ASN1_OUT_OF_DATA
        else check_len (p + 4) e
               (Z.lor (Z.lor (Z.shiftl (rd buf (p + 1)) 16)
                              (Z.shiftl (rd buf (p + 2)) 8))
                      (rd buf (p + 3)))
    | 4 =>
        if e - p <? 5 then Err MBEDTLS_ERR_ASN1_OUT_OF_DATA
        else check_len (p + 5) e
               (Z.lor (Z.lor (Z.lor (Z.shiftl (rd buf (p + 1)) 24)
                                     (Z.shiftl (rd buf (p + 2)) 16))
                              (Z.shiftl (rd buf (p + 3)) 8))
                      (rd buf (p + 4)))
    | _ => Err MBEDTLS_ERR_ASN1_INVALID_LENGTH
    end.

(** Modelled from the spec: [mbedtls_asn1_get_tag] (mbedtls,
    library/asn1parse.c) is not among the sources.  It expects the tag
    byte [tag] at the cursor and then a DER length: "malformed
    tag/length (structure error), premature end of buffer" are its
    failures. *)
Definition mbedtls_asn1_get_tag (buf : list Z) (p e tag : Z)
  : result (Z * Z) :=
  if e - p <? 1 then Err MBEDTLS_ERR_ASN1_OUT_OF_DATA
  else if negb (rd buf p =? tag) then Err MBEDTLS_ERR_ASN1_UNEXPECTED_TAG
  else mbedtls_asn1_get_len buf (p + 1) e.

(** Modelled from the spec: [mbedtls_mpi] (mbedtls/bignum.h) is not
    among the sources.  An "unsigned big-integer value". *)
Definition mbedtls_mpi : Type := Z.

(** The unsigned big-endian value of a byte list. *)
Definition be_value (bs : list Z) : Z :=
  fold_left (fun acc b => acc * 256 + b) bs 0.

(** [buf[p .. p+len)]. *)
Definition slice (buf : list Z) (p len : Z) : list Z :=
  map (fun k => rd buf (p + Z.of_nat k)) (seq 0 (Z.to_nat len)).

(** Modelled from the spec: [mbedtls_mpi_read_binary] (mbedtls,
    library/bignum.c) is not among the sources.  "Convert to an
    unsigned big-integer value": the [len] magnitude bytes at [p],
    big-endian; a leading 0x00 padding byte does not change the value.
    The allocation of the limbs is not modelled. *)
Definition mbedtls_mpi_read_binary (buf : list Z) (p len : Z) : mbedtls_mpi :=
  be_value (slice buf p len).

(** Modelled from the spec: [mbedtls_asn1_get_mpi] (mbedtls,
    library/asn1parse.c) is not among the sources.  "A tag byte 0x02, a
    DER length, followed by that many magnitude bytes"; the cursor
    moves past them. *)
Definition mbedtls_asn1_get_mpi (buf : list Z) (p e : Z)
  : result (Z * mbedtls_mpi) :=
  match mbedtls_asn1_get_tag buf p e MBEDTLS_ASN1_INTEGER with
  | Err c => Err c
  | Ok (p1, len) => Ok (p1 + len, mbedtls_mpi_read_binary buf p1 len)
  end.

(** Modelled from the spec: [mbedtls_mpi_size] (mbedtls,
    library/bignum.c) is not among the sources.  The number of bytes
    the magnitude requires. *)
Definition mbedtls_mpi_size (X : mbedtls_mpi) : Z :=
  if X <=? 0 then 0 else (Z.log2 X + 8) / 8.

(** [n] big-endian bytes of [X], the most significant first. *)
Definition be_bytes (n : nat) (X : Z) : list Z :=
  map (fun k => Z.land (Z.shiftr X (8 * Z.of_nat (n - 1 - k))) 0xff)
      (seq 0 n).

(** Modelled from the spec: [mbedtls_mpi_write_binary] (mbedtls,
    library/bignum.c) is not among the sources.  "Write that integer
    as exactly 32 big-endian bytes (left-zero-padded if shorter; must
    fail, not silently truncate, if the magnitude requires more than
    32 bytes)", for a width [buflen]: the first [buflen] bytes of
    [buf] are overwritten, which [buf] must have. *)
Definition mbedtls_mpi_write_binary (X : mbedtls_mpi) (buf : list Z)
    (buflen : Z) : result (list Z) :=
  if buflen <? mbedtls_mpi_size X then Err MBEDTLS_ERR_MPI_BUFFER_TOO_SMALL
  else Ok (be_bytes (Z.to_nat buflen) X ++ skipn (Z.to_nat buflen) buf).

End Mbedtls.
Import Mbedtls.

(** ** Signature decomposer *)

(** [ecdsa_asn1_get_signature(signature, signaturelen, rval, sval)]:
    the returned [int] and the contents of the two output buffers when
    the call returns.  The cursor [p] starts at offset 0 of [signature]
    and [end] is the offset [signaturelen]; the length that
    [mbedtls_asn1_get_tag] stores in [len] is not used. *)
Definition ecdsa_asn1_get_signature (signature : option (list Z))
    (signaturelen : Z) (rval sval : option (list Z))
  : Z * option (list Z) * option (list Z) :=
  match signature, rval, sval with
  | Some sig, Some r, Some s =>
      if signaturelen =? 0 then (1, rval, sval)
      else
        let p := 0 in
        let e := p + signaturelen in
        match mbedtls_asn1_get_tag sig p e
                (Z.lor MBEDTLS_ASN1_CONSTRUCTED MBEDTLS_ASN1_SEQUENCE) with
        | Err res => (res, Some r, Some s)
        | Ok (p, _) =>
            match mbedtls_asn1_get_mpi sig p e with
            | Err res => (res, Some r, Some s)
            | Ok (p, xmpi) =>
                match mbedtls_mpi_write_binary xmpi r 32 with
                | Err res => (res, Some r, Some s)
                | Ok r' =>
                    match mbedtls_asn1_get_mpi sig p e with
                    | Err res => (res, Some r', Some s)
                    | Ok (p, xmpi) =>
                        match mbedtls_mpi_write_binary xmpi s 32 with
                        | Err res => (res, Some r', Some s)
                        | Ok s' =>
                            if negb (e =? p) then (2, Some r', Some s')
                            else (0, Some r', Some s')
                        end
                    end
                end
            end
        end
  | _, _, _ => (1, rval, sval)
  end.

(** ** TLV nodes and the tag registry *)

(** Modelled from the spec: [tlv_tag_t] (emv/tlv.h) is not among the
    sources.  A tag code is an "unsigned-integer (<= 16 bits)"; the
    format [%2hx] that prints it agrees. *)
Definition TLV_TAG_MAX : Z := 0xFFFF.

(** [struct tlv] (emv/tlv.h): [value] points to [len] bytes. *)
Record tlv : Type := mk_tlv { tag : Z; len : Z; value : list Z }.

Inductive asn1_tag_t : Type :=
| ASN1_TAG_GENERIC
| ASN1_TAG_BOOLEAN
| ASN1_TAG_INTEGER
| ASN1_TAG_STRING
| ASN1_TAG_UTC_TIME
| ASN1_TAG_OBJECT_ID.

(** [struct asn1_tag]; its field [tag] is [atag] here, next to the
    [tag] of [struct tlv], and the field [data], null in every entry,
    is left out. *)
Record asn1_tag : Type :=
  mk_asn1_tag { atag : Z; name : string; type : asn1_tag_t }.

(** The table; an entry written without a type has the first
    enumerator, [ASN1_TAG_GENERIC]. *)
Definition asn1_tags : list asn1_tag :=
  [ mk_asn1_tag 0x00 "Unknown ???" ASN1_TAG_GENERIC;
    mk_asn1_tag 0x01 "BOOLEAN" ASN1_TAG_BOOLEAN;
    mk_asn1_tag 0x02 "INTEGER" ASN1_TAG_INTEGER;
    mk_asn1_tag 0x03 "BIT STRING" ASN1_TAG_GENERIC;
    mk_asn1_tag 0x04 "OCTET STRING" ASN1_TAG_GENERIC;
    mk_asn1_tag 0x05 "NULL" ASN1_TAG_GENERIC;
    mk_asn1_tag 0x06 "OBJECT IDENTIFIER" ASN1_TAG_OBJECT_ID;
    mk_asn1_tag 0x0C "UTF8String" ASN1_TAG_STRING;
    mk_asn1_tag 0x10 "SEQUENCE" ASN1_TAG_GENERIC;
    mk_asn1_tag 0x11 "SET" ASN1_TAG_GENERIC;
    mk_asn1_tag 0x13 "PrintableString" ASN1_TAG_STRING;
    mk_asn1_tag 0x14 "T61String" ASN1_TAG_STRING;
    mk_asn1_tag 0x16 "IA5String" ASN1_TAG_STRING;
    mk_asn1_tag 0x17 "UTCTime" ASN1_TAG_UTC_TIME;
    mk_asn1_tag 0x18 "GeneralizedTime" ASN1_TAG_UTC_TIME;
    mk_asn1_tag 0x30 "SEQUENCE" ASN1_TAG_GENERIC;
    mk_asn1_tag 0x31 "SET" ASN1_TAG_GENERIC;
    mk_asn1_tag 0xa0 "[0]" ASN1_TAG_GENERIC;
    mk_asn1_tag 0xa1 "[1]" ASN1_TAG_GENERIC;
    mk_asn1_tag 0xa2 "[2]" ASN1_TAG_GENERIC;
    mk_asn1_tag 0xa3 "[3]" ASN1_TAG_GENERIC;
    mk_asn1_tag 0xa4 "[4]" ASN1_TAG_GENERIC;
    mk_asn1_tag 0xa5 "[5]" ASN1_TAG_GENERIC ].

(** The rank: a code below 0x100 is shifted left by 8 bits. *)
Definition asn1_sort_tag (tag : Z) : Z :=
  to_int (if tag >=? 0x100 then tag else Z.shiftl tag 8).

Definition asn1_tlv_compare (a : tlv) (b : asn1_tag) : Z :=
  to_int (asn1_sort_tag (tag a) - asn1_sort_tag (atag b)).

Section Bsearch.

Context {K E : Type}.
Variable compar : K -> E -> Z.
Variable dflt : E.

(** Modelled from the spec: [bsearch] (the C library) is not among the
    sources.  "Ordered binary search": the halving loop over the index
    interval [l, u), which returns the element that compares equal to
    the key, or nothing (a null pointer). *)
Equations? bsearch_loop (key : K) (base : list E) (l u : Z)
  : option E by wf (Z.to_nat (u - l)) lt :=
  bsearch_loop key base l u with Z_lt_dec l u := {
    | left _
        with Z.compare
               (compar key (nth (Z.to_nat ((l + u) / 2)) base dflt)) 0 := {
        | Lt := bsearch_loop key base l ((l + u) / 2);
        | Gt := bsearch_loop key base ((l + u) / 2 + 1) u;
        | Eq := Some (nth (Z.to_nat ((l + u) / 2)) base dflt) };
    | right _ := None }.
Proof.
  all: assert (l <= (l + u) / 2 < u)
    by (split; [apply Z.div_le_lower_bound | apply Z.div_lt_upper_bound]; lia);
    lia.
Qed.

Definition bsearch (key : K) (base : list E) (nmemb : Z) : option E :=
  bsearch_loop key base 0 nmemb.

(** The array is ordered for [key], as [bsearch] requires: the
    comparison falls strictly as the index grows over [0, n). *)
Definition descending (key : K) (base : list E) (n : Z) : Prop :=
  forall i j : Z,
    0 <= i < j -> j < n ->
    compar key (nth (Z.to_nat j) base dflt)
    < compar key (nth (Z.to_nat i) base dflt).

End Bsearch.

(** The filler that [nth] wants for an index outside the table; no
    lookup reaches it. *)
Definition no_tag : asn1_tag := mk_asn1_tag 0 EmptyString ASN1_TAG_GENERIC.

(** [asn1_get_tag]: the entry [bsearch] finds, or [&asn1_tags[0]]. *)
Definition asn1_get_tag (t : tlv) : asn1_tag :=
  match bsearch asn1_tlv_compare no_tag t asn1_tags
          (Z.of_nat (List.length asn1_tags)) with
  | Some e => e
  | None => nth 0 asn1_tags no_tag
  end.

(** ** Value formatter *)

(** Text written to the stream [f]. *)
Definition TAB : string := String (ascii_of_nat 9) EmptyString.
Definition NL : string := String (ascii_of_nat 10) EmptyString.

(** [PRINT_INDENT(level)]: three blanks [level] times. *)
Definition PRINT_INDENT (level : Z) : string :=
  concat EmptyString (repeat "   "%string (Z.to_nat level)).

(** The bytes [fwrite] sends. *)
Definition string_of_bytes (bs : list Z) : string :=
  string_of_list_ascii (map (fun b => ascii_of_N (Z.to_N b)) bs).

(** The conversions [%x] and [%lu] of printf, and padding to a field
    width. *)
Definition hex (n : Z) : string :=
  HexadecimalString.NilZero.string_of_uint (N.to_hex_uint (Z.to_N n)).

Definition dec (n : Z) : string :=
  DecimalString.NilZero.string_of_uint (N.to_uint (Z.to_N n)).

Definition pad (c : string) (width : nat) (s : string) : string :=
  (concat EmptyString (repeat c (width - String.length s)) ++ s)%string.

Definition asn1_tag_dump_string (t : tlv) (tag : asn1_tag) (level : Z)
  : string :=
  (TAB ++ "value: '" ++ string_of_bytes (firstn (Z.to_nat (len t)) (value t))
       ++ "'" ++ NL)%string.

(** The loop of [asn1_value_integer].  The state is the [int] counter
    [i], the [unsigned long] accumulator [ret] and, as an observation,
    the indices of [tlv->value] read so far.  [i < end - 1] compares as
    [unsigned]; [i / 2] is the division of [int], which truncates; a
    step of the loop uses up one unit of [fuel]. *)
Fixpoint asn1_value_integer_loop (fuel : nat) (t : tlv) (e : Z)
    (i ret : Z) (reads : list Z) : Z * Z * list Z :=
  if to_uint i <? to_uint (e - 1) then
    match fuel with
    | O => (i, ret, reads)
    | S fuel' =>
        let ret := to_ulong (ret * 10) in
        let ret := to_ulong (ret + Z.shiftr (rd (value t) (Z.quot i 2)) 4) in
        let ret := to_ulong (ret * 10) in
        let ret := to_ulong (ret + Z.land (rd (value t) (Z.quot i 2)) 0xf) in
        asn1_value_integer_loop fuel' t e (to_int (i + 2)) ret
          (reads ++ [Z.quot i 2; Z.quot i 2])%list
    end
  else (i, ret, reads).

(** [asn1_value_integer(tlv, start, end)] for [unsigned] arguments: the
    returned [unsigned long] and the indices of [tlv->value] it read, in
    order.  The loop gets [end] units of fuel, more than the [end / 2]
    steps it can take. *)
Definition asn1_value_integer_run (t : tlv) (start e : Z) : Z * list Z :=
  let ret := 0 in
  if e >? to_size_t (len t * 2) then (ret, [])
  else if start >=? e then (ret, [])
  else
    let '(i, ret, reads) :=
      if negb (Z.land start 1 =? 0)
      then (to_int (to_uint (start + 1)),
            to_ulong (ret + Z.land (rd (value t) (start / 2)) 0xf),
            [start / 2])
      else (to_int start, ret, []) in
    let '(_, ret, reads) :=
      asn1_value_integer_loop (Z.to_nat e) t e i ret reads in
    if negb (Z.land e 1 =? 0)
    then (to_ulong (to_ulong (ret * 10) + Z.shiftr (rd (value t) (e / 2)) 4),
          (reads ++ [e / 2])%list)
    else (ret, reads).

Definition asn1_value_integer (t : tlv) (start e : Z) : Z :=
  fst (asn1_value_integer_run t start e).

Definition asn1_value_integer_reads (t : tlv) (start e : Z) : list Z :=
  snd (asn1_value_integer_run t start e).

Definition asn1_tag_dump_boolean (t : tlv) (tag : asn1_tag) (level : Z)
  : string :=
  (PRINT_INDENT level ++
   (if (len t >? 0)%Z
    then TAB ++ "value: " ++
         (if negb (rd (value t) 0 =? 0)%Z then "true" else "false") ++ NL
    else "n/a" ++ NL))%string.

(** The argument [tlv->len * 2] is computed in [size_t] and converted
    to the [unsigned] parameter. *)
Definition asn1_tag_dump_integer (t : tlv) (tag : asn1_tag) (level : Z)
  : string :=
  (PRINT_INDENT level ++ TAB ++ "value: " ++
   dec (asn1_value_integer t 0 (to_uint (to_size_t (len t * 2)))) ++ NL)%string.

Section Dump.

(** [mbedtls_oid_get_numeric_string] (mbedtls, library/oid.c) is not
    among the sources: what it leaves in [pstr] for the [len] bytes at
    [value] is a parameter. *)
Variable mbedtls_oid_get_numeric_string : list Z -> Z -> string.

Definition asn1_tag_dump_object_id (t : tlv) (tag : asn1_tag) (level : Z)
  : string :=
  (PRINT_INDENT level ++ " " ++
   mbedtls_oid_get_numeric_string (value t) (len t) ++ NL)%string.

(** [asn1_tag_dump(tlv, f, level, candump)]: the returned [bool], the
    value of [*candump] afterwards, and the text written to [f]. *)
Definition asn1_tag_dump (t : option tlv) (level : Z) (candump : bool)
  : bool * bool * string :=
  match t with
  | None => (false, candump, ("NULL" ++ NL)%string)
  | Some tlv =>
      let code := tag tlv in
      let tag := asn1_get_tag tlv in
      let out :=
        (PRINT_INDENT level ++
         "--" ++ pad " " 2 (hex (to_ushort code)) ++
         "[" ++ pad "0" 2 (hex (len tlv)) ++ "] '" ++ name tag ++ "':")%string in
      match type tag with
      | ASN1_TAG_GENERIC => (true, candump, (out ++ NL)%string)
      | ASN1_TAG_STRING =>
          (true, false, (out ++ asn1_tag_dump_string tlv tag level)%string)
      | ASN1_TAG_BOOLEAN =>
          (true, false, (out ++ asn1_tag_dump_boolean tlv tag level)%string)
      | ASN1_TAG_INTEGER =>
          (true, false, (out ++ asn1_tag_dump_integer tlv tag level)%string)
      | ASN1_TAG_UTC_TIME => (true, candump, (out ++ NL)%string)
      | ASN1_TAG_OBJECT_ID =>
          (true, false, (out ++ asn1_tag_dump_object_id tlv tag level)%string)
      end
  end.

(** ** Tree dump driver *)

(** What [print_cb] sends to stdout: text, or a call of [dump_buffer]
    (emv/dump.c, not among the sources) on a value.  With a null node
    [tlv->value] is a null dereference. *)
Inductive output : Type :=
| Text (s : string)
| Dump_buffer (value : list Z) (len : Z) (level : Z)
| Null_dereference.

(** [print_cb(data, tlv, level, is_leaf)]: the returned [bool] and the
    output. *)
Definition print_cb (t : option tlv) (level : Z) (is_leaf : bool)
  : bool * list output :=
  let candump := true in
  let '(_, candump, out) := asn1_tag_dump t level candump in
  (true,
   Text out ::
   (if is_leaf && candump
    then match t with
         | Some tlv => [Dump_buffer (value tlv) (len tlv) level]
         | None => [Null_dereference]
         end
    else [])).

End Dump.

(** ** Well-formed inputs *)

Definition is_byte (b : Z) : Prop := 0 <= b < 256.
Definition is_uint (x : Z) : Prop := 0 <= x < UINT_MOD.

(** A node as the TLV parser builds it: a 16-bit tag and [len] bytes
    of value; no object has more than [PTRDIFF_MAX] bytes. *)
Definition tlv_wf (t : tlv) : Prop :=
  0 <= tag t <= TLV_TAG_MAX /\
  len t = Z.of_nat (List.length (value t)) /\
  len t <= PTRDIFF_MAX /\
  Forall is_byte (value t).

(** ** The specification's reading of the operations *)

(** Packed decimal, after the specification's words: "if [start] is odd,
    consume the low nibble of the first byte as the first digit; then
    consume nibble pairs (high, then low) accumulating
    [result = result*10 + digit] for each; if [end] is odd, consume one
    trailing high nibble", behind the guard "if [end > 2*length] or
    [start >= end], return 0".  The accumulator is an [unsigned long]. *)
Definition high_nibble (b : Z) : Z := b / 16.
Definition low_nibble (b : Z) : Z := b mod 16.

Definition accumulate (result digit : Z) : Z :=
  (result * 10 + digit) mod ULONG_MOD.

Definition packed_digits (bytes : list Z) (start e : Z) : list Z :=
  (if Z.odd start then [low_nibble (nth (Z.to_nat (start / 2)) bytes 0)]
   else []) ++
  flat_map (fun b => [high_nibble b; low_nibble b])
    (firstn (Z.to_nat (e / 2 - (start + 1) / 2))
       (skipn (Z.to_nat ((start + 1) / 2)) bytes)) ++
  (if Z.odd e then [high_nibble (nth (Z.to_nat (e / 2)) bytes 0)] else []).

Definition decode_packed_decimal (bytes : list Z) (start e : Z) : Z :=
  if (e >? 2 * Z.of_nat (List.length bytes)) || (start >=? e) then 0
  else fold_left accumulate (packed_digits bytes start e) 0.

(** The sentinel entry, [asn1_tags[0]]. *)
Definition sentinel : asn1_tag :=
  mk_asn1_tag 0x00 "Unknown ???" ASN1_TAG_GENERIC.

(** The lookup of an absent code as the specification puts it: "for
    any code absent from the table, [lookup(code)] returns the
    sentinel". *)
Definition absent_code_gives_sentinel (t : tlv) : Prop :=
  ~ In (tag t) (map atag asn1_tags) -> asn1_get_tag t = sentinel.

(** "[consumed=false] (category Generic or UtcTime)". *)
Definition consumed (category : asn1_tag_t) : bool :=
  match category with
  | ASN1_TAG_GENERIC | ASN1_TAG_UTC_TIME => false
  | _ => true
  end.

Definition is_raw_dump (o : output) : bool :=
  match o with
  | Dump_buffer _ _ _ => true
  | _ => false
  end.

(** The DER encoding of the ECDSA-Sig-Value
    [SEQUENCE { r INTEGER, s INTEGER }] of two non-negative integers:
    minimal big-endian magnitude, a leading 0x00 when the top bit is
    set, definite lengths in the shortest form. *)
Definition der_magnitude (x : Z) : list Z :=
  if x <=? 0 then [0]
  else
    let m := be_bytes (Z.to_nat (mbedtls_mpi_size x)) x in
    if nth 0 m 0 >=? 0x80 then 0 :: m else m.

Definition der_length (n : Z) : list Z :=
  if n <? 0x80 then [n]
  else
    let bs := be_bytes (Z.to_nat (mbedtls_mpi_size n)) n in
    (0x80 + Z.of_nat (List.length bs)) :: bs.

Definition der_tlv (tag : Z) (content : list Z) : list Z :=
  tag :: der_length (Z.of_nat (List.length content)) ++ content.

Definition der_integer (x : Z) : list Z := der_tlv 0x02 (der_magnitude x).

Definition ecdsa_sig_value (r s : Z) : list Z :=
  der_tlv 0x30 (der_integer r ++ der_integer s).

(** The end cursor as the specification puts it, "start-of-content +
    declared length" of the outer SEQUENCE, and the cursor once both
    INTEGERs are consumed and written, both from the calls the
    decomposer makes. *)
Definition declared_end (sig : list Z) (signaturelen : Z) : option Z :=
  match mbedtls_asn1_get_tag sig 0 signaturelen
          (Z.lor MBEDTLS_ASN1_CONSTRUCTED MBEDTLS_ASN1_SEQUENCE) with
  | Ok (p, l) => Some (p + l)
  | Err _ => None
  end.

Definition cursor_after_integers (sig : list Z) (signaturelen : Z)
  : option Z :=
  match mbedtls_asn1_get_tag sig 0 signaturelen
          (Z.lor MBEDTLS_ASN1_CONSTRUCTED MBEDTLS_ASN1_SEQUENCE) with
  | Ok (p, _) =>
      match mbedtls_asn1_get_mpi sig p signaturelen with
      | Ok (p, x) =>
          if 32 <? mbedtls_mpi_size x then None
          else
            match mbedtls_asn1_get_mpi sig p signaturelen with
            | Ok (p, y) => if 32 <? mbedtls_mpi_size y then None else Some p
            | Err _ => None
            end
      | Err _ => None
      end
  | Err _ => None
  end.

(** The returned [int] of the decomposer. *)
Definition status (r : Z * option (list Z) * option (list Z)) : Z :=
  fst (fst r).

(** The trailing-data check as the specification puts it: once both
    INTEGERs are consumed, the call fails with 2 exactly when the cursor
    is not at the declared end of the outer SEQUENCE. *)
Definition trailing_data_at_declared_end (sig : list Z) (signaturelen : Z)
    (rval sval : list Z) : Prop :=
  forall e p : Z,
    declared_end sig signaturelen = Some e ->
    cursor_after_integers sig signaturelen = Some p ->
    (status (ecdsa_asn1_get_signature (Some sig) signaturelen
               (Some rval) (Some sval)) = 2 <-> p <> e).

(** ** Readings of nibble ranges

    The nibble at position [k] of a value (even positions are high
    nibbles), the positions [start, end) in order, and the decimal
    number a digit list writes. *)
Definition nibble_at (bytes : list Z) (k : Z) : Z :=
  if Z.even k then high_nibble (nth (Z.to_nat (k / 2)) bytes 0)
  else low_nibble (nth (Z.to_nat (k / 2)) bytes 0).

Definition positions (start e : Z) : list Z :=
  map (fun k => start + Z.of_nat k) (seq 0 (Z.to_nat (e - start))).

Definition decimal (digits : list Z) : Z :=
  fold_left (fun r d => r * 10 + d) digits 0.

Definition nibble_pairs (bytes : list Z) : list Z :=
  flat_map (fun b => [high_nibble b; low_nibble b]) bytes.

(** * Properties *)

(** ** Signature decomposer *)

(** The encoder on three pairs: small values, a value whose top bit
    asks for the 0x00 padding byte, and the largest 32-byte value. *)
Example ecdsa_sig_value_one_two :
  ecdsa_sig_value 1 2 = [0x30; 6; 2; 1; 1; 2; 1; 2].
Proof. reflexivity. Qed.

Example ecdsa_sig_value_padded :
  ecdsa_sig_value 0x80 0xFFFF = [0x30; 9; 2; 2; 0; 0x80; 2; 3; 0; 0xFF; 0xFF].
Proof. reflexivity. Qed.

Example ecdsa_asn1_get_signature_wide :
  ecdsa_asn1_get_signature
    (Some (ecdsa_sig_value (2 ^ 255) (2 ^ 256 - 1))) 72
    (Some (repeat 0xAA 32)) (Some (repeat 0x55 32))
  = (0, Some (0x80 :: repeat 0 31), Some (repeat 0xFF 32)).
Proof. vm_compute. reflexivity. Qed.

Lemma skipn_length_nil (A : Type) (n : nat) (l : list A) :
  List.length l = n -> skipn n l = [].
Proof. intros <-. apply skipn_all. Qed.

(** C1.  On the DER encoding of SEQUENCE { INTEGER 1, INTEGER 2 }, with
    two 32-byte output buffers, the decomposer returns 0 and leaves
    31 zero bytes followed by 0x01 in [rval] and 31 zero bytes followed
    by 0x02 in [sval]. *)
Theorem ecdsa_asn1_get_signature_one_two (sig rval sval : list Z) :
  sig = ecdsa_sig_value 1 2 ->
  List.length rval = 32%nat ->
  List.length sval = 32%nat ->
  ecdsa_asn1_get_signature (Some sig) (Z.of_nat (List.length sig))
    (Some rval) (Some sval)
  = (0, Some (repeat 0 31 ++ [0x01]), Some (repeat 0 31 ++ [0x02])).
Proof.
  intros -> Hr Hs.
  unfold ecdsa_asn1_get_signature.
  change (Z.of_nat (List.length (ecdsa_sig_value 1 2)) =? 0) with false.
  cbv iota.
  change (mbedtls_asn1_get_tag (ecdsa_sig_value 1 2) 0 _ _)
    with (@Ok (Z * Z) (2, 6)).
  cbv iota beta.
  change (mbedtls_asn1_get_mpi (ecdsa_sig_value 1 2) 2 _)
    with (@Ok (Z * Z) (5, 1)).
  cbv iota beta.
  change (mbedtls_asn1_get_mpi (ecdsa_sig_value 1 2) 5 _)
    with (@Ok (Z * Z) (8, 2)).
  unfold mbedtls_mpi_write_binary.
  change (32 <? mbedtls_mpi_size 1) with false.
  change (32 <? mbedtls_mpi_size 2) with false.
  cbv iota beta.
  rewrite (skipn_length_nil _ _ rval), (skipn_length_nil _ _ sval)
    by (rewrite ?Hr, ?Hs; reflexivity).
  reflexivity.
Qed.

Lemma ecdsa_asn1_get_signature_one_two_witness :
  ecdsa_asn1_get_signature (Some (ecdsa_sig_value 1 2)) 8
    (Some (repeat 0xAA 32)) (Some (repeat 0x55 32))
  = (0, Some (repeat 0 31 ++ [0x01]), Some (repeat 0 31 ++ [0x02])).
Proof.
  apply (ecdsa_asn1_get_signature_one_two
           (ecdsa_sig_value 1 2) (repeat 0xAA 32) (repeat 0x55 32));
    reflexivity.
Defined.

(** C10.  With a null [signature], [rval] or [sval], or with
    [signaturelen] zero, the decomposer returns 1 and both output
    buffers are as they were. *)
Theorem ecdsa_asn1_get_signature_null (signature : option (list Z))
    (signaturelen : Z) (rval sval : option (list Z)) :
  signature = None \/ signaturelen = 0 \/ rval = None \/ sval = None ->
  ecdsa_asn1_get_signature signature signaturelen rval sval
  = (1, rval, sval).
Proof.
  intros H. unfold ecdsa_asn1_get_signature.
  destruct signature as [sig |], rval as [r |], sval as [s |];
    try reflexivity.
  destruct H as [H | [H | [H | H]]]; try discriminate H.
  subst signaturelen. reflexivity.
Qed.

Lemma ecdsa_asn1_get_signature_null_witness :
  ecdsa_asn1_get_signature (Some [0x30; 6; 2; 1; 1; 2; 1; 2]) 0
    (Some (repeat 0xAA 32)) None
  = (1, Some (repeat 0xAA 32), None).
Proof.
  apply (ecdsa_asn1_get_signature_null
           (Some [0x30; 6; 2; 1; 1; 2; 1; 2]) 0 (Some (repeat 0xAA 32)) None).
  right. left. reflexivity.
Defined.

(** Every failure of the mbedtls calls is a negative code. *)
Lemma check_len_neg (p e l c : Z) : check_len p e l = Err c -> c < 0.
Proof.
  unfold check_len. destruct (l >? e - p); [| discriminate].
  intros [= <-]. reflexivity.
Qed.

Ltac split_match :=
  match goal with
  | |- context [match ?x with _ => _ end] => destruct x eqn:?
  | |- context [if ?x then _ else _] => destruct x eqn:?
  end.

Lemma mbedtls_asn1_get_len_neg (buf : list Z) (p e c : Z) :
  mbedtls_asn1_get_len buf p e = Err c -> c < 0.
Proof.
  unfold mbedtls_asn1_get_len.
  repeat split_match;
    solve [ apply check_len_neg | intros [= <-]; reflexivity ].
Qed.

Lemma mbedtls_asn1_get_tag_neg (buf : list Z) (p e tag c : Z) :
  mbedtls_asn1_get_tag buf p e tag = Err c -> c < 0.
Proof.
  unfold mbedtls_asn1_get_tag.
  repeat split_match;
    solve [ apply mbedtls_asn1_get_len_neg | intros [= <-]; reflexivity ].
Qed.

Lemma mbedtls_asn1_get_mpi_neg (buf : list Z) (p e c : Z) :
  mbedtls_asn1_get_mpi buf p e = Err c -> c < 0.
Proof.
  unfold mbedtls_asn1_get_mpi.
  destruct (mbedtls_asn1_get_tag buf p e MBEDTLS_ASN1_INTEGER) as [[p1 l] | c']
    eqn:E; [discriminate |].
  intros [= <-]. eapply mbedtls_asn1_get_tag_neg, E.
Qed.

(** The capacity test of [mbedtls_mpi_write_binary] in numbers: the
    magnitude requires at most [n] bytes when it is below [2^(8n)]. *)
Lemma mbedtls_mpi_size_le (X n : Z) :
  0 <= X -> 0 <= n -> (mbedtls_mpi_size X <= n <-> X < 2 ^ (8 * n)).
Proof.
  intros HX Hn. unfold mbedtls_mpi_size.
  destruct (Z.leb_spec X 0) as [H0 | H0].
  - assert (X = 0) as -> by lia.
    split; intros _; [apply Z.pow_pos_nonneg; lia | exact Hn].
  - rewrite (Z.log2_lt_pow2 X (8 * n) H0).
    pose proof (Z.log2_nonneg X) as Hl.
    split; intros H; Z.div_mod_to_equations; lia.
Qed.

Lemma write_binary_too_small (X : Z) (buf : list Z) :
  2 ^ 256 <= X ->
  mbedtls_mpi_write_binary X buf 32 = Err MBEDTLS_ERR_MPI_BUFFER_TOO_SMALL.
Proof.
  intros H. unfold mbedtls_mpi_write_binary.
  destruct (Z.ltb_spec 32 (mbedtls_mpi_size X)) as [_ | H1]; [reflexivity |].
  apply mbedtls_mpi_size_le in H1; lia.
Qed.

Lemma write_binary_fits (X : Z) (buf : list Z) :
  0 <= X < 2 ^ 256 ->
  mbedtls_mpi_write_binary X buf 32 = Ok (be_bytes 32 X ++ skipn 32 buf).
Proof.
  intros H. unfold mbedtls_mpi_write_binary.
  destruct (Z.ltb_spec 32 (mbedtls_mpi_size X)) as [H1 | _]; [| reflexivity].
  assert (mbedtls_mpi_size X <= 32); [| lia].
  apply mbedtls_mpi_size_le; lia.
Qed.

(** C3.  When the outer SEQUENCE and the first INTEGER parse and the
    first INTEGER is [2^256] or more (its magnitude requires more than
    32 bytes), the decomposer returns the nonzero
    [MBEDTLS_ERR_MPI_BUFFER_TOO_SMALL] and writes nothing; when the
    first fits and the second INTEGER parses and is [2^256] or more, it
    returns the same failure and [sval] is not written. *)
Theorem ecdsa_asn1_get_signature_capacity (sig : list Z) (signaturelen : Z)
    (rval sval : list Z) (p0 l p1 X : Z) :
  signaturelen <> 0 ->
  mbedtls_asn1_get_tag sig 0 signaturelen 0x30 = Ok (p0, l) ->
  mbedtls_asn1_get_mpi sig p0 signaturelen = Ok (p1, X) ->
  MBEDTLS_ERR_MPI_BUFFER_TOO_SMALL <> 0 /\
  (2 ^ 256 <= X ->
   ecdsa_asn1_get_signature (Some sig) signaturelen (Some rval) (Some sval)
   = (MBEDTLS_ERR_MPI_BUFFER_TOO_SMALL, Some rval, Some sval)) /\
  (forall p2 Y : Z,
     0 <= X < 2 ^ 256 ->
     mbedtls_asn1_get_mpi sig p1 signaturelen = Ok (p2, Y) ->
     2 ^ 256 <= Y ->
     ecdsa_asn1_get_signature (Some sig) signaturelen (Some rval) (Some sval)
     = (MBEDTLS_ERR_MPI_BUFFER_TOO_SMALL,
        Some (be_bytes 32 X ++ skipn 32 rval), Some sval)).
Proof.
  intros Hlen Htag Hr.
  split; [discriminate |].
  unfold ecdsa_asn1_get_signature.
  destruct (Z.eqb_spec signaturelen 0) as [? | _]; [contradiction |].
  change (Z.lor MBEDTLS_ASN1_CONSTRUCTED MBEDTLS_ASN1_SEQUENCE) with 0x30.
  cbv zeta. rewrite Z.add_0_l, Htag, Hr.
  split.
  - intros HX. rewrite write_binary_too_small by exact HX. reflexivity.
  - intros p2 Y HX Hs HY.
    rewrite write_binary_fits by exact HX.
    rewrite Hs, write_binary_too_small by exact HY. reflexivity.
Qed.

Lemma ecdsa_asn1_get_signature_capacity_witness :
  ecdsa_asn1_get_signature
    (Some ([0x30; 38; 2; 33; 1] ++ repeat 0 32 ++ [2; 1; 2])) 40
    (Some (repeat 0xAA 32)) (Some (repeat 0x55 32))
  = (MBEDTLS_ERR_MPI_BUFFER_TOO_SMALL,
     Some (repeat 0xAA 32), Some (repeat 0x55 32)).
Proof.
  refine (proj1 (proj2 (ecdsa_asn1_get_signature_capacity
                          ([0x30; 38; 2; 33; 1] ++ repeat 0 32 ++ [2; 1; 2])
                          40 (repeat 0xAA 32) (repeat 0x55 32)
                          2 38 37 (2 ^ 256) _ _ _)) _).
  - discriminate.
  - reflexivity.
  - reflexivity.
  - lia.
Defined.

(** Appending a byte leaves what the cursor reads in place. *)
Lemma rd_app_l (buf : list Z) (b k : Z) :
  k < Z.of_nat (List.length buf) -> rd (buf ++ [b]) k = rd buf k.
Proof.
  intros H. unfold rd. destruct (k <? 0) eqn:E; [reflexivity |].
  apply app_nth1. apply Z.ltb_ge in E. lia.
Qed.

Lemma check_len_extend (p e l p' l' : Z) :
  check_len p e l = Ok (p', l') ->
  check_len p (e + 1) l = Ok (p', l') /\ p' = p /\ l' <= e - p'.
Proof.
  unfold check_len.
  destruct (Z.gtb_spec l (e - p)); [discriminate |].
  intros [= <- <-].
  destruct (Z.gtb_spec l (e + 1 - p)); [lia |].
  repeat split; lia.
Qed.

Ltac long_form buf b :=
  match goal with
  | |- context [?x - ?y <? ?k] =>
      destruct (Z.ltb_spec (x - y) k); [discriminate |]
  end;
  match goal with
  | |- context [?x + 1 - ?y <? ?k] =>
      destruct (Z.ltb_spec (x + 1 - y) k); [lia |]
  end;
  repeat (rewrite rd_app_l by lia);
  let H := fresh in
  intros H; apply check_len_extend in H;
  destruct H as (-> & ? & ?); repeat split; lia.

Lemma mbedtls_asn1_get_len_extend (buf : list Z) (b p e p' l : Z) :
  e <= Z.of_nat (List.length buf) ->
  mbedtls_asn1_get_len buf p e = Ok (p', l) ->
  mbedtls_asn1_get_len (buf ++ [b]) p (e + 1) = Ok (p', l)
  /\ p <= p' /\ l <= e - p'.
Proof.
  intros He. unfold mbedtls_asn1_get_len.
  destruct (Z.ltb_spec (e - p) 1); [discriminate |].
  destruct (Z.ltb_spec (e + 1 - p) 1); [lia |].
  rewrite (rd_app_l buf b p) by lia.
  destruct (Z.land (rd buf p) 128 =? 0).
  - intros Hc. apply check_len_extend in Hc.
    destruct Hc as (-> & ? & ?). repeat split; lia.
  - destruct (Z.land (rd buf p) 127) as [| [[q | q |] | [q | [q | q |] |] |] |];
      try discriminate; long_form buf b.
Qed.

Lemma mbedtls_asn1_get_tag_extend (buf : list Z) (b p e tag p' l : Z) :
  e <= Z.of_nat (List.length buf) ->
  mbedtls_asn1_get_tag buf p e tag = Ok (p', l) ->
  mbedtls_asn1_get_tag (buf ++ [b]) p (e + 1) tag = Ok (p', l)
  /\ p <= p' /\ l <= e - p'.
Proof.
  intros He. unfold mbedtls_asn1_get_tag.
  destruct (Z.ltb_spec (e - p) 1); [discriminate |].
  destruct (Z.ltb_spec (e + 1 - p) 1); [lia |].
  rewrite rd_app_l by lia.
  destruct (negb (rd buf p =? tag)); [discriminate |].
  intros Hl. apply (mbedtls_asn1_get_len_extend buf b) in Hl; [| exact He].
  destruct Hl as (-> & ? & ?). repeat split; lia.
Qed.

Lemma slice_extend (buf : list Z) (b p l : Z) :
  p + l <= Z.of_nat (List.length buf) ->
  slice (buf ++ [b]) p l = slice buf p l.
Proof.
  intros H. unfold slice. apply map_ext_in.
  intros k Hk. apply in_seq in Hk. apply rd_app_l. lia.
Qed.

Lemma mbedtls_asn1_get_mpi_extend (buf : list Z) (b p e p' X : Z) :
  e <= Z.of_nat (List.length buf) ->
  mbedtls_asn1_get_mpi buf p e = Ok (p', X) ->
  mbedtls_asn1_get_mpi (buf ++ [b]) p (e + 1) = Ok (p', X) /\ p' <= e.
Proof.
  intros He. unfold mbedtls_asn1_get_mpi.
  destruct (mbedtls_asn1_get_tag buf p e MBEDTLS_ASN1_INTEGER)
    as [[p1 l] | c] eqn:E; [| discriminate].
  apply (mbedtls_asn1_get_tag_extend buf b) in E; [| exact He].
  destruct E as (-> & ? & ?).
  intros [= <- <-]. unfold mbedtls_mpi_read_binary.
  rewrite slice_extend by lia. split; [reflexivity | lia].
Qed.

(** The status follows the cursor: with both INTEGERs consumed and
    written, 0 when the cursor is at [signature + signaturelen] and 2
    otherwise; a negative mbedtls code when a call failed. *)
Lemma status_by_cursor (sig : list Z) (signaturelen : Z) (rval sval : list Z) :
  signaturelen <> 0 ->
  match cursor_after_integers sig signaturelen with
  | Some p =>
      status (ecdsa_asn1_get_signature (Some sig) signaturelen
                (Some rval) (Some sval))
      = if signaturelen =? p then 0 else 2
  | None =>
      status (ecdsa_asn1_get_signature (Some sig) signaturelen
                (Some rval) (Some sval)) < 0
  end.
Proof.
  intros Hlen.
  unfold cursor_after_integers, ecdsa_asn1_get_signature, status,
    mbedtls_mpi_write_binary.
  destruct (Z.eqb_spec signaturelen 0) as [? | _]; [contradiction |].
  cbv zeta. rewrite Z.add_0_l.
  destruct (mbedtls_asn1_get_tag sig 0 signaturelen _) as [[p0 l0] | c] eqn:E0;
    [| apply mbedtls_asn1_get_tag_neg in E0; exact E0].
  destruct (mbedtls_asn1_get_mpi sig p0 signaturelen) as [[p1 X] | c] eqn:E1;
    [| apply mbedtls_asn1_get_mpi_neg in E1; exact E1].
  destruct (32 <? mbedtls_mpi_size X); [reflexivity |].
  destruct (mbedtls_asn1_get_mpi sig p1 signaturelen) as [[p2 Y] | c] eqn:E2;
    [| apply mbedtls_asn1_get_mpi_neg in E2; exact E2].
  destruct (32 <? mbedtls_mpi_size Y); [reflexivity |].
  destruct (signaturelen =? p2); reflexivity.
Qed.

Lemma cursor_after_integers_extend (sig : list Z) (b p : Z) :
  cursor_after_integers sig (Z.of_nat (List.length sig)) = Some p ->
  cursor_after_integers (sig ++ [b]) (Z.of_nat (List.length sig) + 1) = Some p.
Proof.
  unfold cursor_after_integers.
  set (n := Z.of_nat (List.length sig)).
  destruct (mbedtls_asn1_get_tag sig 0 n _) as [[p0 l0] | c] eqn:E0;
    [| discriminate].
  apply (mbedtls_asn1_get_tag_extend sig b) in E0; [| subst n; lia].
  destruct E0 as (-> & _ & _).
  destruct (mbedtls_asn1_get_mpi sig p0 n) as [[p1 X] | c] eqn:E1;
    [| discriminate].
  apply (mbedtls_asn1_get_mpi_extend sig b) in E1; [| subst n; lia].
  destruct E1 as (-> & _).
  destruct (32 <? mbedtls_mpi_size X); [discriminate |].
  destruct (mbedtls_asn1_get_mpi sig p1 n) as [[p2 Y] | c] eqn:E2;
    [| discriminate].
  apply (mbedtls_asn1_get_mpi_extend sig b) in E2; [| subst n; lia].
  destruct E2 as (-> & _).
  destruct (32 <? mbedtls_mpi_size Y); [discriminate |].
  trivial.
Qed.

(** C2, as stated, fails: on 30 03 02 01 01 02 01 02 (the outer
    SEQUENCE declares 3 bytes of content, 6 follow) the cursor ends at
    offset 8, the declared end is offset 5, and the call returns 0. *)
Lemma trailing_data_at_declared_end_fails :
  ~ trailing_data_at_declared_end [0x30; 3; 2; 1; 1; 2; 1; 2] 8
      (repeat 0 32) (repeat 0 32).
Proof.
  intros H.
  destruct (H 5 8 eq_refl eq_refl) as [_ H2].
  assert (8 <> 5) as Hne by discriminate.
  specialize (H2 Hne). vm_compute in H2. discriminate H2.
Qed.

(** C2, amended.  The end cursor is [signature + signaturelen], the end
    of the buffer; the length the outer SEQUENCE declares is not used.
    With both INTEGERs consumed and written, the call returns 2 exactly
    when the cursor is not at that end, and 0 when it is; every other
    failure is a negative mbedtls code, so 2 is distinct from them; and
    appending one byte to a buffer that decomposes with status 0 gives
    status 2. *)
Theorem ecdsa_asn1_get_signature_trailing_data (sig : list Z)
    (signaturelen : Z) (rval sval : list Z) :
  signaturelen <> 0 ->
  let res := status (ecdsa_asn1_get_signature (Some sig) signaturelen
                       (Some rval) (Some sval)) in
  (forall p : Z,
     cursor_after_integers sig signaturelen = Some p ->
     (res = 2 <-> p <> signaturelen) /\ (res = 0 <-> p = signaturelen)) /\
  (cursor_after_integers sig signaturelen = None -> res < 0) /\
  (signaturelen = Z.of_nat (List.length sig) -> res = 0 ->
   forall b : Z,
     status (ecdsa_asn1_get_signature (Some (sig ++ [b])) (signaturelen + 1)
               (Some rval) (Some sval)) = 2).
Proof.
  intros Hlen res.
  pose proof (status_by_cursor sig signaturelen rval sval Hlen) as Hs.
  fold res in Hs.
  split; [| split].
  - intros p Hp. rewrite Hp in Hs.
    destruct (Z.eqb_spec signaturelen p); split; split; intros; lia.
  - intros Hn. rewrite Hn in Hs. exact Hs.
  - intros Hn Hr b.
    destruct (cursor_after_integers sig signaturelen) as [p |] eqn:Ec;
      [| lia].
    destruct (Z.eqb_spec signaturelen p) as [<- | ?]; [| lia].
    subst signaturelen.
    apply (cursor_after_integers_extend sig b) in Ec.
    pose proof (status_by_cursor (sig ++ [b]) (Z.of_nat (List.length sig) + 1)
                  rval sval) as Hs'.
    rewrite Ec in Hs'.
    destruct (Z.eqb_spec (Z.of_nat (List.length sig) + 1)
                (Z.of_nat (List.length sig))); [lia |].
    apply Hs'. lia.
Qed.

Lemma ecdsa_asn1_get_signature_trailing_data_witness :
  status (ecdsa_asn1_get_signature (Some (ecdsa_sig_value 1 2 ++ [0xFF])) 9
            (Some (repeat 0xAA 32)) (Some (repeat 0x55 32))) = 2.
Proof.
  refine (proj2 (proj2 (ecdsa_asn1_get_signature_trailing_data
                          (ecdsa_sig_value 1 2) 8
                          (repeat 0xAA 32) (repeat 0x55 32) _)) _ _ 0xFF).
  - discriminate.
  - reflexivity.
  - reflexivity.
Defined.

(** ** The decomposer on every encoded signature *)

Lemma be_value_snoc (bs : list Z) (b : Z) :
  be_value (bs ++ [b]) = be_value bs * 256 + b.
Proof. unfold be_value. rewrite fold_left_app. reflexivity. Qed.

Lemma be_bytes_S (n : nat) (X : Z) :
  be_bytes (S n) X = be_bytes n (X / 256) ++ [X mod 256].
Proof.
  unfold be_bytes. rewrite seq_S, map_app. cbn [map Nat.add].
  f_equal.
  - apply map_ext_in. intros k Hk. apply in_seq in Hk.
    replace (8 * Z.of_nat (S n - 1 - k)) with (8 + 8 * Z.of_nat (n - 1 - k))
      by lia.
    rewrite <- Z.shiftr_shiftr by lia.
    rewrite (Z.shiftr_div_pow2 X 8) by lia. reflexivity.
  - replace (S n - 1 - n)%nat with 0%nat by lia.
    rewrite Z.shiftr_0_r. change 0xff with (Z.ones 8).
    rewrite Z.land_ones by lia. reflexivity.
Qed.

(** Reading back what [mbedtls_mpi_write_binary] wrote gives the value
    modulo the width: nothing is lost below [2^(8n)]. *)
Lemma be_value_be_bytes (n : nat) (X : Z) :
  be_value (be_bytes n X) = X mod 2 ^ (8 * Z.of_nat n).
Proof.
  revert X. induction n as [| n IH]; intros X.
  - simpl. rewrite Z.mod_1_r. reflexivity.
  - rewrite be_bytes_S, be_value_snoc, IH.
    replace (8 * Z.of_nat (S n)) with (8 + 8 * Z.of_nat n) by lia.
    rewrite Z.pow_add_r by lia. change (2 ^ 8) with 256.
    rewrite Z.rem_mul_r by lia. lia.
Qed.

Lemma be_bytes_length (n : nat) (X : Z) : List.length (be_bytes n X) = n.
Proof. unfold be_bytes. rewrite length_map, length_seq. reflexivity. Qed.

Lemma mbedtls_mpi_size_nonneg (X : Z) : 0 <= mbedtls_mpi_size X.
Proof.
  unfold mbedtls_mpi_size. destruct (X <=? 0); [lia |].
  pose proof (Z.log2_nonneg X). Z.div_mod_to_equations. lia.
Qed.

Lemma der_magnitude_value (x : Z) : 0 <= x -> be_value (der_magnitude x) = x.
Proof.
  intros Hx. unfold der_magnitude.
  destruct (Z.leb_spec x 0) as [H0 | H0].
  - assert (x = 0) as -> by lia. reflexivity.
  - assert (be_value (be_bytes (Z.to_nat (mbedtls_mpi_size x)) x) = x) as Hv.
    { rewrite be_value_be_bytes, Z2Nat.id by apply mbedtls_mpi_size_nonneg.
      apply Z.mod_small. split; [lia |].
      apply mbedtls_mpi_size_le;
        [lia | apply mbedtls_mpi_size_nonneg | lia]. }
    destruct (nth 0 _ 0 >=? 128); [| exact Hv].
    etransitivity; [| exact Hv]. reflexivity.
Qed.

Lemma der_magnitude_length (x : Z) :
  0 <= x < 2 ^ 256 -> (1 <= List.length (der_magnitude x) <= 33)%nat.
Proof.
  intros Hx. unfold der_magnitude.
  destruct (Z.leb_spec x 0) as [H0 | H0]; [simpl; lia |].
  assert (1 <= mbedtls_mpi_size x <= 32) as Hs.
  { split; [| apply mbedtls_mpi_size_le; lia].
    assert (~ mbedtls_mpi_size x <= 0); [| lia].
    intros Hle. apply mbedtls_mpi_size_le in Hle; lia. }
  destruct (nth 0 _ 0 >=? 128); cbn [List.length];
    rewrite be_bytes_length; lia.
Qed.

Lemma rd_app_at (pre bs : list Z) (k : Z) :
  0 <= k -> rd (pre ++ bs) (Z.of_nat (List.length pre) + k) = rd bs k.
Proof.
  intros Hk. unfold rd.
  destruct (Z.ltb_spec (Z.of_nat (List.length pre) + k) 0); [lia |].
  destruct (Z.ltb_spec k 0); [lia |].
  replace (Z.to_nat (Z.of_nat (List.length pre) + k))
    with (List.length pre + Z.to_nat k)%nat by lia.
  apply app_nth2_plus.
Qed.

Lemma land_0x80_short (n : Z) : 0 <= n < 0x80 -> Z.land n 0x80 = 0.
Proof.
  intros H. apply Z.bits_inj'. intros k Hk.
  rewrite Z.land_spec, Z.bits_0.
  destruct (Z.eq_dec k 7) as [-> | Hne].
  - rewrite (Z.bits_above_log2 n 7); [reflexivity | lia |].
    destruct (Z.eq_dec n 0) as [-> | Hn]; [simpl; lia |].
    apply Z.log2_lt_pow2; lia.
  - change 0x80 with (2 ^ 7). rewrite Z.pow2_bits_eqb by lia.
    destruct (Z.eqb_spec 7 k); [lia |]. apply andb_false_r.
Qed.

(** A short definite-length element at offset [|pre|]: the cursor moves
    past tag and length, and the length is that of the content. *)
Lemma mbedtls_asn1_get_tag_der (pre content post : list Z) (tag e : Z) :
  Z.of_nat (List.length content) < 0x80 ->
  Z.of_nat (List.length pre) + 2 + Z.of_nat (List.length content) <= e ->
  mbedtls_asn1_get_tag (pre ++ der_tlv tag content ++ post)
    (Z.of_nat (List.length pre)) e tag
  = Ok (Z.of_nat (List.length pre) + 2, Z.of_nat (List.length content)).
Proof.
  intros Hshort He.
  unfold der_tlv, der_length.
  destruct (Z.ltb_spec (Z.of_nat (List.length content)) 0x80); [| lia].
  cbn [app].
  set (n := Z.of_nat (List.length content)) in *.
  set (p := Z.of_nat (List.length pre)) in *.
  set (rest := tag :: n :: content ++ post).
  assert (rd (pre ++ rest) p = tag) as Hd0.
  { rewrite <- (Z.add_0_r p). unfold p. rewrite rd_app_at by lia. reflexivity. }
  assert (rd (pre ++ rest) (p + 1) = n) as Hd1.
  { unfold p. rewrite rd_app_at by lia. reflexivity. }
  unfold mbedtls_asn1_get_tag, mbedtls_asn1_get_len, check_len.
  rewrite Hd0, Hd1, Z.eqb_refl. cbn [negb].
  rewrite land_0x80_short by lia. cbn [Z.eqb].
  destruct (Z.ltb_spec (e - p) 1); [lia |].
  destruct (Z.ltb_spec (e - (p + 1)) 1); [lia |].
  destruct (Z.gtb_spec n (e - (p + 1 + 1))); [lia |].
  f_equal. f_equal. lia.
Qed.

Lemma slice_app_at (pre content post : list Z) :
  slice (pre ++ content ++ post) (Z.of_nat (List.length pre))
    (Z.of_nat (List.length content)) = content.
Proof.
  unfold slice. rewrite Nat2Z.id.
  apply nth_ext with (d := 0) (d' := 0).
  - rewrite length_map, length_seq. reflexivity.
  - intros k Hk. rewrite length_map, length_seq in Hk.
    rewrite (nth_indep _ 0 (rd (pre ++ content ++ post)
                              (Z.of_nat (List.length pre) + Z.of_nat 0)))
      by (rewrite length_map, length_seq; exact Hk).
    rewrite (map_nth (fun k => rd (pre ++ content ++ post)
                                 (Z.of_nat (List.length pre) + Z.of_nat k))).
    rewrite seq_nth by exact Hk. cbn [Nat.add].
    rewrite rd_app_at by lia. unfold rd.
    destruct (Z.ltb_spec (Z.of_nat k) 0); [lia |].
    rewrite Nat2Z.id. apply app_nth1. exact Hk.
Qed.

Lemma mbedtls_asn1_get_mpi_der (pre post : list Z) (x e : Z) :
  0 <= x < 2 ^ 256 ->
  Z.of_nat (List.length pre) + 2
  + Z.of_nat (List.length (der_magnitude x)) <= e ->
  mbedtls_asn1_get_mpi (pre ++ der_integer x ++ post)
    (Z.of_nat (List.length pre)) e
  = Ok (Z.of_nat (List.length pre) + 2
        + Z.of_nat (List.length (der_magnitude x)), x).
Proof.
  intros Hx He. pose proof (der_magnitude_length x Hx) as Hl.
  unfold mbedtls_asn1_get_mpi, der_integer, MBEDTLS_ASN1_INTEGER.
  rewrite mbedtls_asn1_get_tag_der by lia.
  f_equal. f_equal. unfold mbedtls_mpi_read_binary.
  unfold der_tlv, der_length.
  destruct (Z.ltb_spec (Z.of_nat (List.length (der_magnitude x))) 0x80);
    [| lia].
  cbn [app].
  replace (pre ++ 2 :: Z.of_nat (List.length (der_magnitude x))
               :: der_magnitude x ++ post)
    with ((pre ++ [2; Z.of_nat (List.length (der_magnitude x))])
          ++ der_magnitude x ++ post)
    by (rewrite <- app_assoc; reflexivity).
  replace (Z.of_nat (List.length pre) + 2)
    with (Z.of_nat (List.length
                      (pre ++ [2; Z.of_nat (List.length (der_magnitude x))])))
    by (rewrite length_app; simpl; lia).
  rewrite slice_app_at. apply der_magnitude_value. lia.
Qed.

(** X11.  Round trip: the DER encoding of any pair below [2^256]
    decomposes with status 0 into the two 32-byte big-endian values. *)
Lemma ecdsa_asn1_get_signature_ecdsa_sig_value (r s : Z) (rval sval : list Z) :
  0 <= r < 2 ^ 256 -> 0 <= s < 2 ^ 256 ->
  List.length rval = 32%nat -> List.length sval = 32%nat ->
  ecdsa_asn1_get_signature (Some (ecdsa_sig_value r s))
    (Z.of_nat (List.length (ecdsa_sig_value r s))) (Some rval) (Some sval)
  = (0, Some (be_bytes 32 r), Some (be_bytes 32 s))
  /\ be_value (be_bytes 32 r) = r /\ be_value (be_bytes 32 s) = s.
Proof.
  intros Hr Hs Hlr Hls.
  split; [| split; rewrite be_value_be_bytes; apply Z.mod_small; simpl; lia].
  pose proof (der_magnitude_length r Hr) as Lr.
  pose proof (der_magnitude_length s Hs) as Ls.
  assert (List.length (der_integer r)
          = (2 + List.length (der_magnitude r))%nat) as Er.
  { unfold der_integer, der_tlv, der_length.
    destruct (Z.ltb_spec (Z.of_nat (List.length (der_magnitude r))) 0x80);
      [reflexivity | lia]. }
  assert (List.length (der_integer s)
          = (2 + List.length (der_magnitude s))%nat) as Es.
  { unfold der_integer, der_tlv, der_length.
    destruct (Z.ltb_spec (Z.of_nat (List.length (der_magnitude s))) 0x80);
      [reflexivity | lia]. }
  set (n := Z.of_nat (List.length (der_integer r ++ der_integer s))).
  assert (n = 4 + Z.of_nat (List.length (der_magnitude r))
              + Z.of_nat (List.length (der_magnitude s))) as Hn
    by (unfold n; rewrite length_app, Er, Es; lia).
  assert (ecdsa_sig_value r s
          = 0x30 :: n :: der_integer r ++ der_integer s) as Hsig.
  { unfold ecdsa_sig_value, der_tlv at 1, der_length. fold n.
    destruct (Z.ltb_spec n 0x80); [reflexivity | lia]. }
  assert (Z.of_nat (List.length (ecdsa_sig_value r s)) = 2 + n) as Hlen.
  { rewrite Hsig. unfold n. cbn [List.length]. lia. }
  unfold ecdsa_asn1_get_signature. rewrite Hlen.
  destruct (Z.eqb_spec (2 + n) 0); [lia |].
  cbv zeta. rewrite Z.add_0_l.
  change (Z.lor MBEDTLS_ASN1_CONSTRUCTED MBEDTLS_ASN1_SEQUENCE) with 0x30.
  pose proof (mbedtls_asn1_get_tag_der [] (der_integer r ++ der_integer s) []
                0x30 (2 + n)) as H0.
  cbn [app List.length Z.of_nat] in H0. rewrite app_nil_r in H0.
  fold (ecdsa_sig_value r s) in H0. fold n in H0.
  rewrite H0 by lia. clear H0. rewrite Z.add_0_l.
  pose proof (mbedtls_asn1_get_mpi_der [0x30; n] (der_integer s) r (2 + n) Hr)
    as H1.
  cbn [app List.length Z.of_nat Pos.of_succ_nat Pos.succ] in H1.
  rewrite <- Hsig in H1. rewrite H1 by lia. clear H1.
  rewrite write_binary_fits by exact Hr.
  pose proof (mbedtls_asn1_get_mpi_der ([0x30; n] ++ der_integer r) [] s
                (2 + n) Hs) as H2.
  rewrite app_nil_r, <- app_assoc in H2. cbn [app List.length] in H2.
  rewrite <- Hsig, Er in H2.
  replace (Z.of_nat (S (S (2 + List.length (der_magnitude r)))))
    with (2 + 2 + Z.of_nat (List.length (der_magnitude r))) in H2 by lia.
  rewrite H2 by lia. clear H2.
  rewrite write_binary_fits by exact Hs.
  destruct (Z.eqb_spec (2 + n)
              (2 + 2 + Z.of_nat (List.length (der_magnitude r)) + 2
               + Z.of_nat (List.length (der_magnitude s)))); [| lia].
  cbn [negb].
  rewrite (skipn_length_nil _ _ rval), (skipn_length_nil _ _ sval)
    by assumption.
  rewrite !app_nil_r. reflexivity.
Qed.

(** Success is exact: status 0 means both INTEGERs were parsed, each
    requires at most 32 bytes, the cursor is at the end of the buffer,
    and the buffers hold the two values. *)
Lemma ecdsa_asn1_get_signature_success (sig : list Z) (signaturelen : Z)
    (rval sval : list Z) :
  status (ecdsa_asn1_get_signature (Some sig) signaturelen
            (Some rval) (Some sval)) = 0 ->
  exists p0 l p1 X Y : Z,
    mbedtls_asn1_get_tag sig 0 signaturelen 0x30 = Ok (p0, l)
    /\ mbedtls_asn1_get_mpi sig p0 signaturelen = Ok (p1, X)
    /\ mbedtls_asn1_get_mpi sig p1 signaturelen = Ok (signaturelen, Y)
    /\ mbedtls_mpi_size X <= 32 /\ mbedtls_mpi_size Y <= 32
    /\ ecdsa_asn1_get_signature (Some sig) signaturelen
         (Some rval) (Some sval)
       = (0, Some (be_bytes 32 X ++ skipn 32 rval),
             Some (be_bytes 32 Y ++ skipn 32 sval)).
Proof.
  unfold status, ecdsa_asn1_get_signature, mbedtls_mpi_write_binary.
  change (Z.lor MBEDTLS_ASN1_CONSTRUCTED MBEDTLS_ASN1_SEQUENCE) with 0x30.
  destruct (signaturelen =? 0); [discriminate |].
  cbv zeta. rewrite Z.add_0_l.
  destruct (mbedtls_asn1_get_tag sig 0 signaturelen 0x30)
    as [[p0 l] | c] eqn:E0;
    [| intros Hc; apply mbedtls_asn1_get_tag_neg in E0; simpl in Hc; lia].
  destruct (mbedtls_asn1_get_mpi sig p0 signaturelen) as [[p1 X] | c] eqn:E1;
    [| intros Hc; apply mbedtls_asn1_get_mpi_neg in E1; simpl in Hc; lia].
  destruct (Z.ltb_spec 32 (mbedtls_mpi_size X)); [discriminate |].
  destruct (mbedtls_asn1_get_mpi sig p1 signaturelen) as [[p2 Y] | c] eqn:E2;
    [| intros Hc; apply mbedtls_asn1_get_mpi_neg in E2; simpl in Hc; lia].
  destruct (Z.ltb_spec 32 (mbedtls_mpi_size Y)); [discriminate |].
  destruct (Z.eqb_spec signaturelen p2) as [<- | ?]; [| discriminate].
  intros _. exists p0, l, p1, X, Y. repeat split; assumption.
Qed.

(** ** Tag registry *)

Section BsearchProps.

Context {K E : Type}.
Variable compar : K -> E -> Z.
Variable dflt : E.

(** What [bsearch] returns compares equal to the key. *)
Lemma bsearch_loop_some (key : K) (base : list E) (l u : Z) (e : E) :
  bsearch_loop compar dflt key base l u = Some e ->
  exists i : Z,
    l <= i < u /\ e = nth (Z.to_nat i) base dflt /\ compar key e = 0.
Proof.
  funelim (bsearch_loop compar dflt key base l u); intros Hres.
  - discriminate Hres.
  - injection Hres as <-.
    exists ((l + u) / 2). repeat split;
      try (apply Z.compare_eq_iff; assumption);
      Z.div_mod_to_equations; lia.
  - destruct (H e Hres) as (i & Hi & Hn & Hc).
    exists i. repeat split; try assumption; Z.div_mod_to_equations; lia.
  - destruct (H e Hres) as (i & Hi & Hn & Hc).
    exists i. repeat split; try assumption; Z.div_mod_to_equations; lia.
Qed.

(** On an ordered array a search that finds nothing has left no
    element that compares equal. *)
Lemma bsearch_loop_none (key : K) (base : list E) (n l u : Z) :
  descending compar dflt key base n ->
  bsearch_loop compar dflt key base l u = None ->
  0 <= l -> u <= n ->
  (forall i, 0 <= i < l -> 0 < compar key (nth (Z.to_nat i) base dflt)) ->
  (forall i, u <= i < n -> compar key (nth (Z.to_nat i) base dflt) < 0) ->
  forall i, 0 <= i < n -> compar key (nth (Z.to_nat i) base dflt) <> 0.
Proof.
  intros Hd.
  funelim (bsearch_loop compar dflt key base l u);
    intros Hres Hl Hu Hlo Hhi i Hi.
  - destruct (Z_lt_dec i l) as [Hil | Hil].
    + specialize (Hlo i). lia.
    + specialize (Hhi i). lia.
  - discriminate Hres.
  - assert (l <= (l + u) / 2 < u) as Hm by (Z.div_mod_to_equations; lia).
    apply (H n Hd Hres); try lia; try assumption.
    intros k Hk. pose proof (proj1 (Z.compare_lt_iff _ _) Heq) as Hlt.
    destruct (Z.eq_dec k ((l + u) / 2)) as [-> | Hne]; [exact Hlt |].
    destruct (Z_lt_dec k u) as [Hku | Hku]; [| apply Hhi; lia].
    pose proof (Hd ((l + u) / 2) k). lia.
  - assert (l <= (l + u) / 2 < u) as Hm by (Z.div_mod_to_equations; lia).
    apply (H n Hd Hres); try lia; try assumption.
    intros k Hk. pose proof (proj1 (Z.compare_gt_iff _ _) Heq) as Hgt.
    destruct (Z.eq_dec k ((l + u) / 2)) as [-> | Hne]; [lia |].
    destruct (Z_lt_dec k l) as [Hkl | Hkl]; [apply Hlo; lia |].
    pose proof (Hd k ((l + u) / 2)). lia.
Qed.

End BsearchProps.

Lemma to_int_small (x : Z) : - 2 ^ 31 <= x < 2 ^ 31 -> to_int x = x.
Proof.
  intros H. unfold to_int, UINT_MOD. rewrite Z.mod_small; lia.
Qed.

Lemma asn1_sort_tag_range (c : Z) :
  0 <= c <= TLV_TAG_MAX -> 0 <= asn1_sort_tag c <= 0xFFFF.
Proof.
  unfold TLV_TAG_MAX, asn1_sort_tag. intros H.
  destruct (Z.geb_spec c 0x100).
  - rewrite to_int_small; lia.
  - rewrite Z.shiftl_mul_pow2 by lia. rewrite to_int_small; lia.
Qed.

Lemma forallb_below (P : nat -> bool) (n k : nat) :
  forallb P (seq 0 n) = true -> (k < n)%nat -> P k = true.
Proof.
  intros H Hk. rewrite forallb_forall in H. apply H, in_seq. lia.
Qed.

(** The table is sorted under the rank, strictly, and its codes are
    below 0x100. *)
Lemma asn1_tags_sorted (i j : Z) :
  0 <= i < j -> j < Z.of_nat (List.length asn1_tags) ->
  asn1_sort_tag (atag (nth (Z.to_nat i) asn1_tags no_tag))
  < asn1_sort_tag (atag (nth (Z.to_nat j) asn1_tags no_tag)).
Proof.
  intros Hij Hj.
  assert (forallb (fun a => forallb (fun b =>
            implb (a <? b)%nat
              (asn1_sort_tag (atag (nth a asn1_tags no_tag))
               <? asn1_sort_tag (atag (nth b asn1_tags no_tag))))
            (seq 0 (List.length asn1_tags))) (seq 0 (List.length asn1_tags))
          = true) as Hall by (vm_compute; reflexivity).
  apply (forallb_below _ _ (Z.to_nat i)) in Hall; [| lia].
  apply (forallb_below _ _ (Z.to_nat j)) in Hall; [| lia].
  cbv beta in Hall.
  destruct (Nat.ltb_spec (Z.to_nat i) (Z.to_nat j)) as [_ | Hge]; [| lia].
  apply Z.ltb_lt. exact Hall.
Qed.

Lemma asn1_tags_codes (i : Z) :
  0 <= i < Z.of_nat (List.length asn1_tags) ->
  0 <= atag (nth (Z.to_nat i) asn1_tags no_tag) < 0x100.
Proof.
  intros Hi.
  assert (forallb (fun a =>
            (0 <=? atag (nth a asn1_tags no_tag))
            && (atag (nth a asn1_tags no_tag) <? 0x100))
            (seq 0 (List.length asn1_tags)) = true) as Hall
    by (vm_compute; reflexivity).
  apply (forallb_below _ _ (Z.to_nat i)) in Hall; [| lia].
  apply andb_prop in Hall. destruct Hall as [H1 H2].
  apply Z.leb_le in H1. apply Z.ltb_lt in H2. lia.
Qed.

Lemma asn1_tlv_compare_ranks (t : tlv) (i : Z) :
  0 <= tag t <= TLV_TAG_MAX ->
  0 <= i < Z.of_nat (List.length asn1_tags) ->
  asn1_tlv_compare t (nth (Z.to_nat i) asn1_tags no_tag)
  = asn1_sort_tag (tag t)
    - asn1_sort_tag (atag (nth (Z.to_nat i) asn1_tags no_tag)).
Proof.
  intros Ht Hi. unfold asn1_tlv_compare.
  pose proof (asn1_sort_tag_range (tag t) Ht).
  pose proof (asn1_tags_codes i Hi) as Hc.
  pose proof (asn1_sort_tag_range
                (atag (nth (Z.to_nat i) asn1_tags no_tag))) as Hr.
  unfold TLV_TAG_MAX in Hr.
  apply to_int_small. lia.
Qed.

Lemma asn1_tags_descending (t : tlv) :
  0 <= tag t <= TLV_TAG_MAX ->
  descending asn1_tlv_compare no_tag t asn1_tags
    (Z.of_nat (List.length asn1_tags)).
Proof.
  intros Ht i j Hij Hj.
  rewrite !asn1_tlv_compare_ranks by lia.
  pose proof (asn1_tags_sorted i j Hij Hj). lia.
Qed.

Lemma In_asn1_tags (e : asn1_tag) :
  In e asn1_tags ->
  exists i : Z,
    0 <= i < Z.of_nat (List.length asn1_tags)
    /\ e = nth (Z.to_nat i) asn1_tags no_tag.
Proof.
  intros H. apply (In_nth _ _ no_tag) in H. destruct H as (k & Hk & <-).
  exists (Z.of_nat k). rewrite Nat2Z.id. split; [lia | reflexivity].
Qed.

(** The lookup in terms of the rank: the entry of the same rank when
    the table has one, the first entry otherwise. *)
Lemma asn1_get_tag_by_rank (t : tlv) :
  0 <= tag t <= TLV_TAG_MAX ->
  (forall e : asn1_tag,
     In e asn1_tags ->
     asn1_sort_tag (atag e) = asn1_sort_tag (tag t) ->
     asn1_get_tag t = e) /\
  ((forall e : asn1_tag,
      In e asn1_tags -> asn1_sort_tag (atag e) <> asn1_sort_tag (tag t)) ->
   asn1_get_tag t = sentinel) /\
  In (asn1_get_tag t) asn1_tags.
Proof.
  intros Ht. unfold asn1_get_tag, bsearch.
  destruct (bsearch_loop asn1_tlv_compare no_tag t asn1_tags 0
              (Z.of_nat (List.length asn1_tags))) as [e' |] eqn:Eb.
  - apply bsearch_loop_some in Eb. destruct Eb as (i & Hi & -> & Hc).
    rewrite asn1_tlv_compare_ranks in Hc by lia.
    apply Zminus_eq in Hc.
    split; [| split; [| apply nth_In; lia]].
    + intros e He Hr. apply In_asn1_tags in He. destruct He as (j & Hj & ->).
      destruct (Z.lt_total i j) as [Hlt | [-> | Hgt]]; [| reflexivity |].
      * exfalso. pose proof (asn1_tags_sorted i j ltac:(lia) ltac:(lia)) as Hs.
        rewrite Hr, Hc in Hs. exact (Z.lt_irrefl _ Hs).
      * exfalso. pose proof (asn1_tags_sorted j i ltac:(lia) ltac:(lia)) as Hs.
        rewrite Hr, Hc in Hs. exact (Z.lt_irrefl _ Hs).
    + intros Hno. exfalso.
      apply (Hno (nth (Z.to_nat i) asn1_tags no_tag)).
      * apply nth_In. lia.
      * symmetry. exact Hc.
  - split; [| split; [| left; reflexivity]].
    + intros e He Hr. exfalso.
      apply In_asn1_tags in He. destruct He as (j & Hj & ->).
      refine (bsearch_loop_none asn1_tlv_compare no_tag t asn1_tags _ 0 _
                (asn1_tags_descending t Ht) Eb _ _ _ _ j Hj _); try lia.
      rewrite asn1_tlv_compare_ranks by lia. rewrite Hr.
      apply Z.sub_diag.
    + intros _. reflexivity.
Qed.

Lemma asn1_sort_tag_low (c : Z) : 0 <= c < 0x100 -> asn1_sort_tag c = c * 256.
Proof.
  intros H. unfold asn1_sort_tag.
  destruct (Z.geb_spec c 0x100); [lia |].
  rewrite Z.shiftl_mul_pow2 by lia. apply to_int_small. lia.
Qed.

Lemma asn1_sort_tag_high (c : Z) :
  0x100 <= c <= TLV_TAG_MAX -> asn1_sort_tag c = c.
Proof.
  unfold TLV_TAG_MAX. intros H. unfold asn1_sort_tag.
  destruct (Z.geb_spec c 0x100); [| lia].
  apply to_int_small. lia.
Qed.

Lemma asn1_tags_code_low (e : asn1_tag) :
  In e asn1_tags -> 0 <= atag e < 0x100.
Proof.
  intros H. apply In_asn1_tags in H. destruct H as (i & Hi & ->).
  apply asn1_tags_codes, Hi.
Qed.

(** C6, as stated, fails: the code 0x0100 is not in the table, and its
    lookup returns the entry of 0x01, "BOOLEAN", not the sentinel. *)
Lemma absent_code_gives_sentinel_fails :
  ~ absent_code_gives_sentinel (mk_tlv 0x0100 0 []).
Proof.
  intros H.
  assert (~ In (tag (mk_tlv 0x0100 0 [])) (map atag asn1_tags)) as Habs.
  { simpl. intros Hin.
    repeat (destruct Hin as [Hin | Hin]; [discriminate Hin |]).
    exact Hin. }
  specialize (H Habs). vm_compute in H. discriminate H.
Qed.

(** C6, amended.  For a 16-bit code the lookup always returns an entry
    of the table: for a code in the table, the entry with that code; for
    an absent code below 0x100, the sentinel; for a code from 0x100 on
    (none is in the table), the entry whose code shifted left by 8 bits
    is the looked-up code when there is one, since both have the same
    rank, and the sentinel otherwise. *)
Theorem asn1_get_tag_lookup (t : tlv) :
  0 <= tag t <= TLV_TAG_MAX ->
  In (asn1_get_tag t) asn1_tags /\
  (In (tag t) (map atag asn1_tags) -> atag (asn1_get_tag t) = tag t) /\
  (tag t < 0x100 -> ~ In (tag t) (map atag asn1_tags) ->
   asn1_get_tag t = sentinel) /\
  (forall e : asn1_tag,
     In e asn1_tags -> tag t = Z.shiftl (atag e) 8 -> 0x100 <= tag t ->
     asn1_get_tag t = e) /\
  (0x100 <= tag t ->
   (forall e : asn1_tag, In e asn1_tags -> tag t <> Z.shiftl (atag e) 8) ->
   asn1_get_tag t = sentinel).
Proof.
  intros Ht.
  destruct (asn1_get_tag_by_rank t Ht) as (Hsame & Hnone & Hin).
  split; [exact Hin |].
  split; [| split; [| split]].
  - intros Hc. apply in_map_iff in Hc. destruct Hc as (e & He & Hc).
    rewrite (Hsame e Hc); [exact He |]. rewrite He. reflexivity.
  - intros Hlow Habs. apply Hnone. intros e He Hr.
    pose proof (asn1_tags_code_low e He) as Hl.
    rewrite (asn1_sort_tag_low (atag e) Hl) in Hr.
    rewrite (asn1_sort_tag_low (tag t)) in Hr by lia.
    apply Habs. apply in_map_iff. exists e. split; [lia | exact He].
  - intros e He Hshift Hhigh. apply (Hsame e He).
    pose proof (asn1_tags_code_low e He) as Hl.
    rewrite (asn1_sort_tag_low (atag e) Hl).
    rewrite (asn1_sort_tag_high (tag t)) by lia.
    rewrite Hshift, Z.shiftl_mul_pow2 by lia. reflexivity.
  - intros Hhigh Hno. apply Hnone. intros e He Hr.
    pose proof (asn1_tags_code_low e He) as Hl.
    rewrite (asn1_sort_tag_low (atag e) Hl) in Hr.
    rewrite (asn1_sort_tag_high (tag t)) in Hr by lia.
    apply (Hno e He). rewrite Z.shiftl_mul_pow2 by lia. lia.
Qed.

Lemma asn1_get_tag_lookup_witness :
  atag (asn1_get_tag (mk_tlv 0x30 2 [0x05; 0x00])) = 0x30.
Proof.
  refine (proj1 (proj2 (asn1_get_tag_lookup (mk_tlv 0x30 2 [0x05; 0x00]) _)) _).
  - unfold TLV_TAG_MAX. simpl. lia.
  - simpl. do 15 right. left. reflexivity.
Defined.

(** ** Value formatter and tree dump driver *)

(** C7.  For a Boolean node the formatter writes, after the
    indentation, "n/a" when the value is empty, and otherwise
    "value: true" when the first value byte is nonzero and
    "value: false" when it is zero, whatever the length of the value; the
    dump of a node whose category is Boolean ends with that text. *)
Theorem asn1_tag_dump_boolean_text (t : tlv) (tag : asn1_tag) (level : Z) :
  len t = Z.of_nat (List.length (value t)) ->
  asn1_tag_dump_boolean t tag level
  = (PRINT_INDENT level ++
     match value t with
     | [] => "n/a" ++ NL
     | b :: _ =>
         TAB ++ "value: " ++ (if (b =? 0)%Z then "false" else "true") ++ NL
     end)%string
  /\ forall (oid : list Z -> Z -> string) (candump : bool),
       type (asn1_get_tag t) = ASN1_TAG_BOOLEAN ->
       exists header : string,
         asn1_tag_dump oid (Some t) level candump
         = (true, false,
            (header ++ asn1_tag_dump_boolean t (asn1_get_tag t) level)%string).
Proof.
  intros Hlen. split.
  - unfold asn1_tag_dump_boolean. rewrite Hlen.
    destruct (value t) as [| b rest]; [reflexivity |].
    change (Z.of_nat (List.length (b :: rest)) >? 0) with true.
    unfold rd. simpl. destruct (b =? 0); reflexivity.
  - intros oid candump Hty. unfold asn1_tag_dump. cbv zeta.
    rewrite Hty. eexists. reflexivity.
Qed.

Lemma asn1_tag_dump_boolean_text_witness :
  asn1_tag_dump_boolean (mk_tlv 0x01 2 [0xFF; 0x00]) no_tag 1
  = (PRINT_INDENT 1 ++ TAB ++ "value: " ++ "true" ++ NL)%string.
Proof.
  refine (proj1 (asn1_tag_dump_boolean_text
                   (mk_tlv 0x01 2 [0xFF; 0x00]) no_tag 1 _)).
  reflexivity.
Defined.

(** C8.  For a non-null node, [asn1_tag_dump] leaves [*candump] as it
    was for the categories Generic and UtcTime and sets it to false for
    String, Boolean, Integer and ObjectId; [print_cb], which starts from
    [candump = true], returns true and calls [dump_buffer] on the value
    exactly when the node is a leaf of category Generic or UtcTime. *)
Theorem print_cb_raw_dump (oid : list Z -> Z -> string) (t : tlv)
    (level : Z) (candump is_leaf : bool) :
  snd (fst (asn1_tag_dump oid (Some t) level candump))
  = match type (asn1_get_tag t) with
    | ASN1_TAG_GENERIC | ASN1_TAG_UTC_TIME => candump
    | ASN1_TAG_STRING | ASN1_TAG_BOOLEAN
    | ASN1_TAG_INTEGER | ASN1_TAG_OBJECT_ID => false
    end
  /\ snd (fst (asn1_tag_dump oid (Some t) level true))
     = negb (consumed (type (asn1_get_tag t)))
  /\ print_cb oid (Some t) level is_leaf
     = (true,
        Text (snd (asn1_tag_dump oid (Some t) level true)) ::
        (if is_leaf && negb (consumed (type (asn1_get_tag t)))
         then [Dump_buffer (value t) (len t) level]
         else []))
  /\ existsb is_raw_dump (snd (print_cb oid (Some t) level is_leaf))
     = is_leaf && negb (consumed (type (asn1_get_tag t))).
Proof.
  unfold print_cb, asn1_tag_dump. cbv zeta.
  destruct (type (asn1_get_tag t)); simpl;
    destruct is_leaf; simpl; repeat split; reflexivity.
Qed.

(** C9.  With a null node [asn1_tag_dump] writes "NULL" and a newline,
    returns false and leaves [*candump] as it was; the node is not
    read. *)
Theorem asn1_tag_dump_null (oid : list Z -> Z -> string) (level : Z)
    (candump : bool) :
  asn1_tag_dump oid None level candump = (false, candump, ("NULL" ++ NL)%string).
Proof. reflexivity. Qed.

(** ** Packed decimal *)

Lemma to_int_range (x : Z) : - 2 ^ 31 <= to_int x < 2 ^ 31.
Proof.
  unfold to_int, UINT_MOD.
  pose proof (Z.mod_pos_bound (x + 2 ^ 31) (2 ^ 32)). lia.
Qed.

Lemma to_uint_to_int (x : Z) : to_uint (to_int x) = to_uint x.
Proof.
  unfold to_uint, to_int, UINT_MOD.
  change (2 ^ 32) with 4294967296. change (2 ^ 31) with 2147483648.
  Z.div_mod_to_equations. lia.
Qed.

Lemma to_uint_small (x : Z) : is_uint x -> to_uint x = x.
Proof. intros H. apply Z.mod_small. exact H. Qed.

(** The [unsigned] view of the counter moves up by two. *)
Lemma to_uint_step (i e : Z) :
  is_uint e -> to_uint i < e ->
  to_uint (to_int (i + 2)) = to_uint i + 2 \/ to_uint i + 2 = UINT_MOD.
Proof.
  unfold is_uint. intros He Hi. rewrite to_uint_to_int.
  unfold to_uint, UINT_MOD in *.
  change (2 ^ 32) with 4294967296 in *.
  Z.div_mod_to_equations. lia.
Qed.

Lemma nibbles (b : Z) :
  Z.shiftr b 4 = high_nibble b /\ Z.land b 0xf = low_nibble b.
Proof.
  unfold high_nibble, low_nibble. split.
  - rewrite Z.shiftr_div_pow2 by lia. reflexivity.
  - change 0xf with (Z.ones 4). rewrite Z.land_ones by lia. reflexivity.
Qed.

Lemma land_1_odd (x : Z) : negb (Z.land x 1 =? 0) = Z.odd x.
Proof.
  change 1 with (Z.ones 1) at 1. rewrite Z.land_ones by lia.
  change (2 ^ 1) with 2. rewrite Zmod_odd.
  destruct (Z.odd x); reflexivity.
Qed.

(** Two steps of the accumulator, as the loop body takes them. *)
Lemma accumulate_pair (ret b : Z) :
  to_ulong (to_ulong (to_ulong (to_ulong (ret * 10) + Z.shiftr b 4) * 10)
            + Z.land b 0xf)
  = accumulate (accumulate ret (high_nibble b)) (low_nibble b).
Proof.
  destruct (nibbles b) as [-> ->].
  unfold accumulate, to_ulong.
  rewrite !Zplus_mod_idemp_l. reflexivity.
Qed.

Lemma accumulate_one (ret d : Z) :
  to_ulong (to_ulong (ret * 10) + d) = accumulate ret d.
Proof.
  unfold accumulate, to_ulong. apply Zplus_mod_idemp_l.
Qed.

Lemma to_uint_pred (e : Z) : is_uint e -> 1 <= e -> to_uint (e - 1) = e - 1.
Proof. unfold is_uint. intros H H1. apply Z.mod_small. lia. Qed.

(** The loop ends by its test: [end] units of fuel are never used up. *)
Lemma asn1_value_integer_loop_exits (fuel : nat) (t : tlv)
    (e i ret : Z) (reads : list Z) :
  is_uint e -> 1 <= e ->
  e - to_uint i <= Z.of_nat fuel ->
  to_uint (e - 1)
  <= to_uint (fst (fst (asn1_value_integer_loop fuel t e i ret reads))).
Proof.
  intros He H1. rewrite (to_uint_pred e He H1).
  revert i ret reads.
  induction fuel as [| fuel IH]; intros i ret reads Hf; simpl;
    rewrite (to_uint_pred e He H1);
    destruct (Z.ltb_spec (to_uint i) (e - 1)) as [Hlt | Hge];
    simpl; try lia.
  apply IH.
  destruct (to_uint_step i e He ltac:(lia)) as [-> | Hw];
    [lia | unfold is_uint in He; lia].
Qed.

(** The fuel [asn1_value_integer] gives its loop is enough whatever the
    counter it starts from. *)
Lemma asn1_value_integer_fuel (t : tlv) (e i ret : Z) (reads : list Z) :
  is_uint e -> 1 <= e ->
  to_uint (e - 1)
  <= to_uint (fst (fst (asn1_value_integer_loop (Z.to_nat e) t e i ret reads))).
Proof.
  intros He H1. apply asn1_value_integer_loop_exits; try assumption.
  pose proof (Z.mod_pos_bound i UINT_MOD ltac:(reflexivity)) as Hb.
  unfold to_uint. lia.
Qed.

(** Every index read lies below [tlv->len]. *)
Lemma asn1_value_integer_loop_reads_below (fuel : nat) (t : tlv)
    (e i ret : Z) (reads : list Z) :
  is_uint e -> 1 <= e -> e <= 2 * len t ->
  - 2 ^ 31 <= i < 2 ^ 31 ->
  Forall (fun k => k < len t) reads ->
  Forall (fun k => k < len t)
    (snd (asn1_value_integer_loop fuel t e i ret reads)).
Proof.
  intros He H1 Hlen. revert i ret reads.
  induction fuel as [| fuel IH]; intros i ret reads Hi Hr; simpl;
    rewrite (to_uint_pred e He H1);
    destruct (Z.ltb_spec (to_uint i) (e - 1)) as [Hlt | Hge];
    simpl; try assumption.
  apply IH; [apply to_int_range |].
  apply Forall_app. split; [exact Hr |].
  assert (Z.quot i 2 < len t) as Hq.
  { destruct (Z_lt_dec i 0) as [Hneg | Hpos].
    - pose proof (Z.quot_opp_l (- i) 2 ltac:(lia)) as Ho.
      rewrite Z.opp_involutive in Ho.
      pose proof (Z.quot_pos (- i) 2 ltac:(lia) ltac:(lia)). lia.
    - rewrite Z.quot_div_nonneg by lia.
      unfold to_uint, UINT_MOD in Hlt. rewrite Z.mod_small in Hlt by lia.
      apply Z.div_lt_upper_bound; lia. }
  repeat constructor; exact Hq.
Qed.

(** With [end] within [int] the counter does not wrap, and every index
    read is non-negative. *)
Lemma asn1_value_integer_loop_reads_nonneg (fuel : nat) (t : tlv)
    (e i ret : Z) (reads : list Z) :
  1 <= e <= INT_MAX ->
  0 <= i <= e ->
  Forall (fun k => 0 <= k) reads ->
  Forall (fun k => 0 <= k)
    (snd (asn1_value_integer_loop fuel t e i ret reads)).
Proof.
  unfold INT_MAX. intros He.
  assert (is_uint e) as Hu by (unfold is_uint, UINT_MOD; lia).
  revert i ret reads.
  induction fuel as [| fuel IH]; intros i ret reads Hi Hr; simpl;
    rewrite (to_uint_pred e Hu ltac:(lia));
    destruct (Z.ltb_spec (to_uint i) (e - 1)) as [Hlt | Hge];
    simpl; try assumption.
  unfold to_uint, UINT_MOD in Hlt. rewrite Z.mod_small in Hlt by lia.
  rewrite to_int_small by lia.
  apply IH; [lia |].
  apply Forall_app. split; [exact Hr |].
  assert (0 <= Z.quot i 2) as Hq by (apply Z.quot_pos; lia).
  repeat constructor; exact Hq.
Qed.

Lemma skipn_cons_nth (bs : list Z) (k : nat) :
  (k < List.length bs)%nat -> skipn k bs = nth k bs 0 :: skipn (S k) bs.
Proof.
  revert k. induction bs as [| b bs IH]; intros k Hk; simpl in Hk; [lia |].
  destruct k as [| k]; [reflexivity |].
  simpl. apply IH. lia.
Qed.

(** The loop accumulates the nibble pairs of the bytes from [i / 2] up
    to [end / 2]. *)
Lemma asn1_value_integer_loop_value (fuel : nat) (t : tlv)
    (e i ret : Z) (reads : list Z) :
  len t = Z.of_nat (List.length (value t)) ->
  1 <= e <= INT_MAX -> e <= 2 * len t ->
  0 <= i <= e -> Z.even i = true ->
  e - i <= Z.of_nat fuel ->
  snd (fst (asn1_value_integer_loop fuel t e i ret reads))
  = fold_left accumulate
      (flat_map (fun b => [high_nibble b; low_nibble b])
         (firstn (Z.to_nat (e / 2 - i / 2))
            (skipn (Z.to_nat (i / 2)) (value t))))
      ret.
Proof.
  unfold INT_MAX. intros Hwf He Hlen.
  assert (is_uint e) as Hu by (unfold is_uint, UINT_MOD; lia).
  revert i ret reads.
  induction fuel as [| fuel IH]; intros i ret reads Hi Hev Hf; simpl;
    rewrite (to_uint_pred e Hu ltac:(lia));
    unfold to_uint, UINT_MOD; rewrite (Z.mod_small i) by lia;
    apply Zeven_bool_iff, Zeven_ex_iff in Hev; destruct Hev as [m ->];
    rewrite (Z.mul_comm 2 m), Z.div_mul in * by lia;
    destruct (Z.ltb_spec (m * 2) (e - 1)) as [Hlt | Hge]; simpl.
  - lia.
  - replace (Z.to_nat (e / 2 - m)) with 0%nat
      by (Z.div_mod_to_equations; lia).
    reflexivity.
  - rewrite to_int_small by lia.
    rewrite (IH (m * 2 + 2)); try lia.
    + replace ((m * 2 + 2) / 2) with (m + 1)
        by (Z.div_mod_to_equations; lia).
      rewrite Z.quot_div_nonneg, Z.div_mul by lia.
      assert (m < e / 2) as Hm by (Z.div_mod_to_equations; lia).
      rewrite (skipn_cons_nth (value t) (Z.to_nat m)) by lia.
      replace (Z.to_nat (e / 2 - m)) with (S (Z.to_nat (e / 2 - (m + 1))))
        by lia.
      replace (S (Z.to_nat m)) with (Z.to_nat (m + 1)) by lia.
      simpl. rewrite accumulate_pair.
      unfold rd. destruct (Z.ltb_spec m 0); [lia |]. reflexivity.
    + replace (m * 2 + 2) with (2 * (m + 1)) by lia.
      rewrite Z.even_mul. reflexivity.
  - replace (Z.to_nat (e / 2 - m)) with 0%nat
      by (Z.div_mod_to_equations; lia).
    reflexivity.
Qed.

Lemma odd_cases (x : Z) :
  (Z.odd x = true /\ exists m, x = 2 * m + 1)
  \/ (Z.odd x = false /\ exists m, x = 2 * m).
Proof.
  destruct (Z.odd x) eqn:E.
  - left. split; [reflexivity |]. apply Zodd_bool_iff, Zodd_ex_iff in E.
    exact E.
  - right. split; [reflexivity |].
    rewrite <- Z.negb_even in E. apply negb_false_iff in E.
    apply Zeven_bool_iff, Zeven_ex_iff in E. exact E.
Qed.

Example decode_packed_decimal_1234 :
  decode_packed_decimal [0x12; 0x34] 0 4 = 1234
  /\ decode_packed_decimal [0x12; 0x34] 1 3 = 23.
Proof. split; reflexivity. Qed.

(** X15.  Behind its guard, with [end] within [int],
    [asn1_value_integer] is the packed-decimal decoding of the nibble
    range [start, end): the low nibble of byte [start / 2] first when
    [start] is odd, then the nibble pairs, high then low, each step
    [result = result * 10 + digit], and the high nibble of byte
    [end / 2] last when [end] is odd.  On the bytes 12 34 with
    [start = 0] and [end = 4] it returns 1234. *)
Theorem asn1_value_integer_packed_decimal (t : tlv) (start e : Z) :
  tlv_wf t -> is_uint start -> 0 <= e <= INT_MAX ->
  asn1_value_integer t start e = decode_packed_decimal (value t) start e
  /\ asn1_value_integer (mk_tlv 0x02 2 [0x12; 0x34]) 0 4 = 1234.
Proof.
  intros (Htag & Hlen & Hmax & Hbytes) Hs He.
  split; [| reflexivity].
  unfold INT_MAX, PTRDIFF_MAX, is_uint, UINT_MOD in *.
  unfold asn1_value_integer, asn1_value_integer_run, decode_packed_decimal.
  unfold to_size_t, SIZE_MOD. rewrite Z.mod_small by lia.
  rewrite <- Hlen, (Z.mul_comm 2 (len t)).
  destruct (Z.gtb_spec e (len t * 2)) as [Hgt | Hle]; [reflexivity |].
  destruct (Z.geb_spec start e) as [Hge | Hlt]; [reflexivity |].
  cbn [orb]. rewrite !land_1_odd. unfold packed_digits.
  rewrite !fold_left_app.
  destruct (odd_cases start) as [(Ho & m & Hm) | (Ho & m & Hm)]; rewrite Ho.
  - unfold to_uint, UINT_MOD. rewrite Z.mod_small by lia.
    rewrite to_int_small by lia.
    destruct (asn1_value_integer_loop (Z.to_nat e) t e (start + 1)
                (to_ulong (0 + Z.land (rd (value t) (start / 2)) 15))
                [start / 2]) as [[i' ret'] reads'] eqn:Hloop.
    pose proof (asn1_value_integer_loop_value (Z.to_nat e) t e (start + 1)
                  (to_ulong (0 + Z.land (rd (value t) (start / 2)) 15))
                  [start / 2] Hlen) as Hv.
    rewrite Hloop in Hv. cbn [fst snd] in Hv.
    rewrite Hv; unfold INT_MAX; try lia.
    + destruct (nibbles (rd (value t) (start / 2))) as [_ ->].
      assert (rd (value t) (start / 2) = nth (Z.to_nat (start / 2)) (value t) 0)
        as -> by (unfold rd; destruct (Z.ltb_spec (start / 2) 0);
                  [Z.div_mod_to_equations; lia | reflexivity]).
      destruct (Z.odd e); cbn [fst fold_left].
      * rewrite accumulate_one.
        destruct (nibbles (rd (value t) (e / 2))) as [-> _].
        assert (rd (value t) (e / 2) = nth (Z.to_nat (e / 2)) (value t) 0)
          as -> by (unfold rd; destruct (Z.ltb_spec (e / 2) 0);
                    [Z.div_mod_to_equations; lia | reflexivity]).
        reflexivity.
      * reflexivity.
    + change (start + 1) with (Z.succ start). rewrite Z.even_succ. exact Ho.
  - rewrite to_int_small by lia.
    destruct (asn1_value_integer_loop (Z.to_nat e) t e start 0 [])
      as [[i' ret'] reads'] eqn:Hloop.
    pose proof (asn1_value_integer_loop_value (Z.to_nat e) t e start 0 []
                  Hlen) as Hv.
    rewrite Hloop in Hv. cbn [fst snd] in Hv.
    rewrite Hv; unfold INT_MAX; try lia.
    + replace ((start + 1) / 2) with (start / 2)
        by (Z.div_mod_to_equations; lia).
      destruct (Z.odd e); cbn [fst fold_left].
      * rewrite accumulate_one.
        destruct (nibbles (rd (value t) (e / 2))) as [-> _].
        assert (rd (value t) (e / 2) = nth (Z.to_nat (e / 2)) (value t) 0)
          as -> by (unfold rd; destruct (Z.ltb_spec (e / 2) 0);
                    [Z.div_mod_to_equations; lia | reflexivity]).
        reflexivity.
      * reflexivity.
    + rewrite <- Z.negb_odd, Ho. reflexivity.
Qed.

Lemma tlv_wf_1234 : tlv_wf (mk_tlv 0x02 2 [0x12; 0x34]).
Proof.
  unfold tlv_wf, TLV_TAG_MAX, PTRDIFF_MAX, is_byte. simpl.
  repeat split; try lia. repeat constructor; lia.
Defined.

Lemma asn1_value_integer_packed_decimal_witness :
  asn1_value_integer (mk_tlv 0x02 2 [0x12; 0x34]) 1 3
  = decode_packed_decimal [0x12; 0x34] 1 3.
Proof.
  refine (proj1 (asn1_value_integer_packed_decimal
                   (mk_tlv 0x02 2 [0x12; 0x34]) 1 3 _ _ _)).
  - exact tlv_wf_1234.
  - unfold is_uint, UINT_MOD. lia.
  - unfold INT_MAX. lia.
Defined.

(** X16.  For a well-formed node and [unsigned] arguments: when
    [end > 2 * len] or [start >= end], [asn1_value_integer] returns 0
    and reads nothing; on every input each index it reads lies strictly
    below [len]; and with [end] within [int] each index is also
    non-negative. *)
Theorem asn1_value_integer_bounds (t : tlv) (start e : Z) :
  tlv_wf t -> is_uint start -> is_uint e ->
  (e > 2 * len t \/ start >= e ->
   asn1_value_integer t start e = 0
   /\ asn1_value_integer_reads t start e = []) /\
  Forall (fun k => k < len t) (asn1_value_integer_reads t start e) /\
  (e <= INT_MAX ->
   Forall (fun k => 0 <= k) (asn1_value_integer_reads t start e)).
Proof.
  intros (Htag & Hlen & Hmax & Hbytes) Hs He.
  unfold INT_MAX, PTRDIFF_MAX, is_uint, UINT_MOD in *.
  unfold asn1_value_integer, asn1_value_integer_reads, asn1_value_integer_run.
  unfold to_size_t, SIZE_MOD. rewrite Z.mod_small by lia.
  rewrite (Z.mul_comm (len t) 2).
  destruct (Z.gtb_spec e (2 * len t)) as [Hgt | Hle];
    [repeat split; constructor |].
  destruct (Z.geb_spec start e) as [Hge | Hlt];
    [repeat split; constructor |].
  assert (is_uint e) as Hu by exact He.
  rewrite !land_1_odd.
  split; [lia |].
  destruct (odd_cases start) as [(Ho & m & Hm) | (Ho & m & Hm)]; rewrite Ho.
  - destruct (asn1_value_integer_loop _ t e _ _ [start / 2])
      as [[i' ret'] reads'] eqn:Hloop.
    assert (start / 2 < len t) as Hs2 by (Z.div_mod_to_equations; lia).
    pose proof (asn1_value_integer_loop_reads_below (Z.to_nat e) t e
                  (to_int (to_uint (start + 1)))
                  (to_ulong (0 + Z.land (rd (value t) (start / 2)) 15))
                  [start / 2] Hu ltac:(lia) Hle (to_int_range _)
                  ltac:(repeat constructor; exact Hs2)) as Hb.
    rewrite Hloop in Hb. cbn [snd] in Hb.
    split.
    + destruct (odd_cases e) as [(Hoe & k & Hk) | (Hoe & k & Hk)];
        rewrite Hoe; cbn [snd]; [| exact Hb].
      apply Forall_app. split; [exact Hb |].
      repeat constructor. Z.div_mod_to_equations. lia.
    + intros Hint.
      pose proof (asn1_value_integer_loop_reads_nonneg (Z.to_nat e) t e
                    (start + 1)
                    (to_ulong (0 + Z.land (rd (value t) (start / 2)) 15))
                    [start / 2] ltac:(unfold INT_MAX; lia) ltac:(lia)
                    ltac:(repeat constructor; Z.div_mod_to_equations; lia))
        as Hn.
      unfold to_uint, UINT_MOD in Hloop.
      rewrite Z.mod_small, to_int_small in Hloop by lia.
      rewrite Hloop in Hn. cbn [snd] in Hn.
      destruct (Z.odd e); cbn [snd]; [| exact Hn].
      apply Forall_app. split; [exact Hn |].
      repeat constructor. Z.div_mod_to_equations. lia.
  - destruct (asn1_value_integer_loop _ t e _ _ [])
      as [[i' ret'] reads'] eqn:Hloop.
    pose proof (asn1_value_integer_loop_reads_below (Z.to_nat e) t e
                  (to_int start) 0 [] Hu ltac:(lia) Hle (to_int_range _)
                  ltac:(constructor)) as Hb.
    rewrite Hloop in Hb. cbn [snd] in Hb.
    split.
    + destruct (odd_cases e) as [(Hoe & k & Hk) | (Hoe & k & Hk)];
        rewrite Hoe; cbn [snd]; [| exact Hb].
      apply Forall_app. split; [exact Hb |].
      repeat constructor. Z.div_mod_to_equations. lia.
    + intros Hint.
      pose proof (asn1_value_integer_loop_reads_nonneg (Z.to_nat e) t e
                    start 0 [] ltac:(unfold INT_MAX; lia) ltac:(lia)
                    ltac:(constructor)) as Hn.
      rewrite to_int_small in Hloop by lia.
      rewrite Hloop in Hn. cbn [snd] in Hn.
      destruct (Z.odd e); cbn [snd]; [| exact Hn].
      apply Forall_app. split; [exact Hn |].
      repeat constructor. Z.div_mod_to_equations. lia.
Qed.

Lemma asn1_value_integer_bounds_witness :
  asn1_value_integer (mk_tlv 0x02 2 [0x12; 0x34]) 0 5 = 0
  /\ asn1_value_integer_reads (mk_tlv 0x02 2 [0x12; 0x34]) 0 5 = [].
Proof.
  refine (proj1 (asn1_value_integer_bounds
                   (mk_tlv 0x02 2 [0x12; 0x34]) 0 5 _ _ _) _).
  - exact tlv_wf_1234.
  - unfold is_uint, UINT_MOD. lia.
  - unfold is_uint, UINT_MOD. lia.
  - left. simpl. lia.
Defined.

(** * Further properties *)

(** ** Packed decimal over nibble positions *)

Lemma positions_nil (s e : Z) : e <= s -> positions s e = [].
Proof.
  intros H. unfold positions.
  replace (Z.to_nat (e - s)) with 0%nat by lia. reflexivity.
Qed.

Lemma positions_cons (s e : Z) :
  s < e -> positions s e = s :: positions (s + 1) e.
Proof.
  intros H. unfold positions.
  replace (Z.to_nat (e - s)) with (S (Z.to_nat (e - (s + 1)))) by lia.
  cbn [seq map]. f_equal; [lia |].
  rewrite <- seq_shift, map_map. apply map_ext. intros k. lia.
Qed.

Lemma positions_app (s m e : Z) :
  s <= m <= e -> positions s e = positions s m ++ positions m e.
Proof.
  intros [Hsm Hme].
  remember (Z.to_nat (m - s)) as n eqn:Hn. revert s Hsm Hn.
  induction n as [| n IH]; intros s Hsm Hn.
  - assert (s = m) as -> by lia. rewrite (positions_nil m m) by lia.
    reflexivity.
  - rewrite (positions_cons s e), (positions_cons s m) by lia.
    rewrite (IH (s + 1)) by lia. reflexivity.
Qed.

Lemma positions_length (s e : Z) :
  Z.of_nat (List.length (positions s e)) = Z.max 0 (e - s).
Proof.
  unfold positions. rewrite length_map, length_seq. lia.
Qed.

Lemma positions_In (s e k : Z) : In k (positions s e) <-> s <= k < e.
Proof.
  unfold positions. rewrite in_map_iff. split.
  - intros (n & <- & Hn). apply in_seq in Hn. lia.
  - intros H. exists (Z.to_nat (k - s)). split; [lia |].
    apply in_seq. lia.
Qed.

(** A digit list read with the wrapping accumulator is the decimal
    number it writes, modulo 2^64. *)
Lemma decimal_from (l : list Z) (a : Z) :
  fold_left (fun r d => r * 10 + d) l a
  = a * 10 ^ Z.of_nat (List.length l) + decimal l.
Proof.
  unfold decimal. revert a. induction l as [| d l IH]; intros a.
  - simpl. lia.
  - cbn [fold_left List.length]. rewrite (IH (a * 10 + d)), (IH (0 * 10 + d)).
    rewrite Nat2Z.inj_succ, Z.pow_succ_r by lia. lia.
Qed.

Lemma decimal_app (l1 l2 : list Z) :
  decimal (l1 ++ l2)
  = decimal l1 * 10 ^ Z.of_nat (List.length l2) + decimal l2.
Proof.
  unfold decimal at 1. rewrite fold_left_app. apply decimal_from.
Qed.

Lemma accumulate_from (l : list Z) (a : Z) :
  fold_left accumulate l a mod ULONG_MOD
  = (a * 10 ^ Z.of_nat (List.length l) + decimal l) mod ULONG_MOD.
Proof.
  revert a. induction l as [| d l IH]; intros a.
  - simpl. f_equal. unfold decimal. simpl. lia.
  - cbn [fold_left List.length]. rewrite IH. unfold accumulate.
    rewrite <- Zplus_mod_idemp_l, Zmult_mod_idemp_l, Zplus_mod_idemp_l.
    f_equal. unfold decimal. cbn [fold_left].
    rewrite (decimal_from l (0 * 10 + d)).
    rewrite Nat2Z.inj_succ, Z.pow_succ_r by lia. unfold decimal. lia.
Qed.

Lemma accumulate_reduced (l : list Z) (a : Z) :
  0 <= a < ULONG_MOD -> 0 <= fold_left accumulate l a < ULONG_MOD.
Proof.
  revert a. induction l as [| d l IH]; intros a Ha; [exact Ha |].
  cbn [fold_left]. apply IH. unfold accumulate.
  apply Z.mod_pos_bound. reflexivity.
Qed.

Lemma accumulate_decimal (l : list Z) :
  fold_left accumulate l 0 = decimal l mod ULONG_MOD.
Proof.
  rewrite <- (Z.mod_small (fold_left accumulate l 0) ULONG_MOD)
    by (apply accumulate_reduced; unfold ULONG_MOD; lia).
  rewrite accumulate_from. f_equal.
Qed.

Lemma nibble_at_even (bytes : list Z) (m : Z) :
  0 <= m ->
  nibble_at bytes (m * 2) = high_nibble (nth (Z.to_nat m) bytes 0)
  /\ nibble_at bytes (m * 2 + 1) = low_nibble (nth (Z.to_nat m) bytes 0).
Proof.
  intros Hm. unfold nibble_at.
  rewrite Z.div_mul by lia.
  replace ((m * 2 + 1) / 2) with m by (Z.div_mod_to_equations; lia).
  rewrite Z.even_mul, Z.even_add, Z.even_mul. cbn.
  rewrite orb_true_r. split; reflexivity.
Qed.

(** The loop from an even counter: the accumulator takes the nibbles at
    the positions from [i] up to the last even position, and the reads
    are the byte indices of those positions. *)
Lemma asn1_value_integer_loop_positions (fuel : nat) (t : tlv)
    (e i ret : Z) (reads : list Z) :
  len t = Z.of_nat (List.length (value t)) ->
  1 <= e <= INT_MAX -> e <= 2 * len t ->
  0 <= i <= e -> Z.even i = true ->
  e - i <= Z.of_nat fuel ->
  snd (fst (asn1_value_integer_loop fuel t e i ret reads))
  = fold_left accumulate
      (map (nibble_at (value t)) (positions i (2 * (e / 2)))) ret
  /\ snd (asn1_value_integer_loop fuel t e i ret reads)
     = reads ++ map (fun k => k / 2) (positions i (2 * (e / 2))).
Proof.
  unfold INT_MAX. intros Hwf He Hlen.
  assert (is_uint e) as Hu by (unfold is_uint, UINT_MOD; lia).
  revert i ret reads.
  induction fuel as [| fuel IH]; intros i ret reads Hi Hev Hf;
    cbn [asn1_value_integer_loop];
    rewrite (to_uint_pred e Hu ltac:(lia));
    unfold to_uint, UINT_MOD; rewrite (Z.mod_small i) by lia;
    apply Zeven_bool_iff, Zeven_ex_iff in Hev; destruct Hev as [m ->];
    rewrite (Z.mul_comm 2 m) in *;
    destruct (Z.ltb_spec (m * 2) (e - 1)) as [Hlt | Hge]; cbn [fst snd].
  - exfalso. lia.
  - rewrite positions_nil by (Z.div_mod_to_equations; lia).
    rewrite app_nil_r. split; reflexivity.
  - rewrite to_int_small by lia.
    destruct (IH (m * 2 + 2)
                (to_ulong
                   (to_ulong
                      (to_ulong (to_ulong (ret * 10)
                                 + Z.shiftr (rd (value t) (Z.quot (m * 2) 2)) 4)
                       * 10)
                    + Z.land (rd (value t) (Z.quot (m * 2) 2)) 15))
                (reads ++ [Z.quot (m * 2) 2; Z.quot (m * 2) 2]))
      as [IHv IHr]; try lia.
    { replace (m * 2 + 2) with (2 * (m + 1)) by lia.
      rewrite Z.even_mul. reflexivity. }
    rewrite IHv, IHr.
    rewrite Z.quot_div_nonneg, Z.div_mul by lia.
    assert (m < e / 2) as Hm by (Z.div_mod_to_equations; lia).
    rewrite (positions_cons (m * 2)) by lia.
    rewrite (positions_cons (m * 2 + 1)) by lia.
    replace (m * 2 + 1 + 1) with (m * 2 + 2) by lia.
    cbn [map fold_left].
    destruct (nibble_at_even (value t) m ltac:(lia)) as [-> ->].
    rewrite accumulate_pair.
    rewrite Z.div_mul by lia.
    replace ((m * 2 + 1) / 2) with m by (Z.div_mod_to_equations; lia).
    rewrite <- app_assoc. cbn [app].
    unfold rd. destruct (Z.ltb_spec m 0); [lia |].
    split; reflexivity.
  - rewrite positions_nil by (Z.div_mod_to_equations; lia).
    rewrite app_nil_r. split; reflexivity.
Qed.

(** Behind the guard, with [end] within [int], a run of
    [asn1_value_integer] in terms of positions. *)
Lemma asn1_value_integer_run_positions (t : tlv) (start e : Z) :
  tlv_wf t -> 0 <= start < e -> e <= 2 * len t -> e <= INT_MAX ->
  asn1_value_integer_run t start e
  = (decimal (map (nibble_at (value t)) (positions start e)) mod ULONG_MOD,
     map (fun k => k / 2) (positions start e)).
Proof.
  intros (Htag & Hlen & Hmax & Hbytes) Hs Hle He.
  rewrite <- accumulate_decimal.
  unfold INT_MAX, PTRDIFF_MAX in *.
  unfold asn1_value_integer_run.
  unfold to_size_t, SIZE_MOD. rewrite Z.mod_small by lia.
  destruct (Z.gtb_spec e (len t * 2)) as [Hgt | _]; [lia |].
  destruct (Z.geb_spec start e) as [Hge | _]; [lia |].
  rewrite !land_1_odd.
  assert (forall k, 0 <= k -> rd (value t) k = nth (Z.to_nat k) (value t) 0)
    as Hrd by (intros k Hk; unfold rd; destruct (Z.ltb_spec k 0);
               [lia | reflexivity]).
  assert (positions start e
          = positions start (2 * (e / 2))
            ++ (if Z.odd e then [e - 1] else [])) as Hsplit.
  { destruct (odd_cases e) as [(Hoe & k & Hk) | (Hoe & k & Hk)]; rewrite Hoe.
    - replace (2 * (e / 2)) with (e - 1) by (Z.div_mod_to_equations; lia).
      rewrite (positions_app start (e - 1) e) by lia.
      rewrite (positions_cons (e - 1) e) by lia.
      rewrite (positions_nil (e - 1 + 1) e) by lia. reflexivity.
    - replace (2 * (e / 2)) with e by (Z.div_mod_to_equations; lia).
      rewrite app_nil_r. reflexivity. }
  assert (Z.odd e = true ->
          nibble_at (value t) (e - 1)
          = high_nibble (nth (Z.to_nat (e / 2)) (value t) 0)
          /\ (e - 1) / 2 = e / 2) as Hlast.
  { intros Hoe. apply Zodd_bool_iff, Zodd_ex_iff in Hoe.
    destruct Hoe as [k ->].
    replace (2 * k + 1 - 1) with (k * 2) by lia.
    replace ((2 * k + 1) / 2) with k by (Z.div_mod_to_equations; lia).
    rewrite Z.div_mul by lia.
    split; [apply nibble_at_even; lia | reflexivity]. }
  destruct (odd_cases start) as [(Ho & m & Hm) | (Ho & m & Hm)]; rewrite Ho.
  - unfold to_uint, UINT_MOD. rewrite Z.mod_small by lia.
    rewrite to_int_small by lia.
    destruct (asn1_value_integer_loop_positions (Z.to_nat e) t e (start + 1)
                (to_ulong (0 + Z.land (rd (value t) (start / 2)) 15))
                [start / 2] Hlen ltac:(unfold INT_MAX; lia) ltac:(lia)
                ltac:(lia)
                ltac:(change (start + 1) with (Z.succ start);
                      rewrite Z.even_succ; exact Ho)
                ltac:(lia)) as [Hv Hr].
    destruct (asn1_value_integer_loop (Z.to_nat e) t e (start + 1) _ _)
      as [[i' ret'] reads'].
    cbn [fst snd] in Hv, Hr. subst ret' reads'.
    assert (start < 2 * (e / 2)) as Hse by (Z.div_mod_to_equations; lia).
    rewrite Hsplit, (positions_cons start (2 * (e / 2)) Hse).
    assert (nibble_at (value t) start
            = low_nibble (nth (Z.to_nat (start / 2)) (value t) 0)) as Hn0.
    { unfold nibble_at. rewrite <- Z.negb_odd, Ho. reflexivity. }
    rewrite Hrd by (Z.div_mod_to_equations; lia).
    destruct (nibbles (nth (Z.to_nat (start / 2)) (value t) 0)) as [_ ->].
    destruct (Z.odd e) eqn:Hoe.
    + destruct (Hlast eq_refl) as [Hn He2].
      rewrite accumulate_one, Hrd by (Z.div_mod_to_equations; lia).
      destruct (nibbles (nth (Z.to_nat (e / 2)) (value t) 0)) as [-> _].
      rewrite !map_app, fold_left_app. cbn [map fold_left app].
      rewrite Hn0, Hn, He2. reflexivity.
    + rewrite !app_nil_r. cbn [map fold_left app]. rewrite Hn0. reflexivity.
  - rewrite to_int_small by lia.
    destruct (asn1_value_integer_loop_positions (Z.to_nat e) t e start 0 []
                Hlen ltac:(unfold INT_MAX; lia) ltac:(lia) ltac:(lia)
                ltac:(rewrite <- Z.negb_odd, Ho; reflexivity)
                ltac:(lia)) as [Hv Hr].
    destruct (asn1_value_integer_loop (Z.to_nat e) t e start 0 [])
      as [[i' ret'] reads'].
    cbn [fst snd] in Hv, Hr. subst ret' reads'.
    rewrite Hsplit.
    destruct (Z.odd e) eqn:Hoe.
    + destruct (Hlast eq_refl) as [Hn He2].
      rewrite accumulate_one, Hrd by (Z.div_mod_to_equations; lia).
      destruct (nibbles (nth (Z.to_nat (e / 2)) (value t) 0)) as [-> _].
      rewrite !map_app, fold_left_app. cbn [map fold_left app].
      rewrite Hn, He2. reflexivity.
    + rewrite !app_nil_r. reflexivity.
Qed.

(** X1.  Behind the guard, with [end] within [int],
    [asn1_value_integer] returns the decimal number written by the
    nibbles at the positions [start, end), modulo 2^64, and reads the
    byte [k / 2] once for each position [k], in order. *)
Theorem asn1_value_integer_nibbles (t : tlv) (start e : Z) :
  tlv_wf t -> 0 <= start < e -> e <= 2 * len t -> e <= INT_MAX ->
  asn1_value_integer t start e
  = decimal (map (nibble_at (value t)) (positions start e)) mod ULONG_MOD
  /\ asn1_value_integer_reads t start e
     = map (fun k => k / 2) (positions start e).
Proof.
  intros Hwf Hs Hle He.
  unfold asn1_value_integer, asn1_value_integer_reads.
  rewrite (asn1_value_integer_run_positions t start e Hwf Hs Hle He).
  split; reflexivity.
Qed.

Lemma asn1_value_integer_nibbles_witness :
  asn1_value_integer (mk_tlv 0x02 2 [0x12; 0x34]) 1 4
  = decimal (map (nibble_at [0x12; 0x34]) (positions 1 4)) mod ULONG_MOD
  /\ asn1_value_integer_reads (mk_tlv 0x02 2 [0x12; 0x34]) 1 4
     = map (fun k => k / 2) (positions 1 4).
Proof.
  refine (asn1_value_integer_nibbles (mk_tlv 0x02 2 [0x12; 0x34]) 1 4 _ _ _ _).
  - exact tlv_wf_1234.
  - lia.
  - simpl. lia.
  - unfold INT_MAX. lia.
Defined.

(** X2.  Decoding composes over a split of the range.  For a
    well-formed node and [0 <= start < mid < end <= 2 * len] with [end]
    within [int], the value over [start, end) is the value over
    [start, mid) shifted by the [end - mid] digits that follow, plus the
    value over [mid, end), modulo 2^64. *)
Theorem asn1_value_integer_split (t : tlv) (start mid e : Z) :
  tlv_wf t -> 0 <= start < mid -> mid < e ->
  e <= 2 * len t -> e <= INT_MAX ->
  asn1_value_integer t start e
  = (asn1_value_integer t start mid * 10 ^ (e - mid)
     + asn1_value_integer t mid e) mod ULONG_MOD.
Proof.
  intros Hwf Hs Hm Hle He.
  unfold asn1_value_integer.
  rewrite (asn1_value_integer_run_positions t start e Hwf) by lia.
  rewrite (asn1_value_integer_run_positions t start mid Hwf) by lia.
  rewrite (asn1_value_integer_run_positions t mid e Hwf) by lia.
  cbn [fst].
  rewrite (positions_app start mid e) by lia.
  rewrite map_app, decimal_app, length_map, positions_length.
  rewrite Z.max_r by lia.
  rewrite (Z.add_mod (decimal _ mod ULONG_MOD * _)) by discriminate.
  rewrite Z.mul_mod_idemp_l, Z.mod_mod by discriminate.
  rewrite <- Z.add_mod by discriminate. reflexivity.
Qed.

Lemma asn1_value_integer_split_witness :
  asn1_value_integer (mk_tlv 0x02 2 [0x12; 0x34]) 0 4
  = (asn1_value_integer (mk_tlv 0x02 2 [0x12; 0x34]) 0 1 * 10 ^ (4 - 1)
     + asn1_value_integer (mk_tlv 0x02 2 [0x12; 0x34]) 1 4) mod ULONG_MOD.
Proof.
  refine (asn1_value_integer_split (mk_tlv 0x02 2 [0x12; 0x34]) 0 1 4
            _ _ _ _ _).
  - exact tlv_wf_1234.
  - lia.
  - lia.
  - simpl. lia.
  - unfold INT_MAX. lia.
Defined.

Lemma decimal_bound (l : list Z) (a : Z) :
  0 <= a -> Forall (fun d => 0 <= d <= 9) l ->
  0 <= fold_left (fun r d => r * 10 + d) l a
  < (a + 1) * 10 ^ Z.of_nat (List.length l).
Proof.
  intros Ha Hl. revert a Ha.
  induction Hl as [| d l Hd Hl IH]; intros a Ha.
  - simpl. lia.
  - cbn [fold_left List.length].
    rewrite Nat2Z.inj_succ, Z.pow_succ_r by lia.
    specialize (IH (a * 10 + d) ltac:(lia)).
    assert (0 < 10 ^ Z.of_nat (List.length l)) by (apply Z.pow_pos_nonneg; lia).
    nia.
Qed.

(** X3.  No wrap-around on up to 19 decimal digits.  For a well-formed
    node and [0 <= start < end <= 2 * len] with [end] within [int]: when
    every nibble of the range is at most 9 and the range has at most 19
    positions, the result is exactly the decimal number the nibbles
    write, and it is below [10 ^ (end - start)]. *)
Theorem asn1_value_integer_exact (t : tlv) (start e : Z) :
  tlv_wf t -> 0 <= start < e -> e <= 2 * len t -> e <= INT_MAX ->
  e - start <= 19 ->
  (forall k, start <= k < e -> 0 <= nibble_at (value t) k <= 9) ->
  asn1_value_integer t start e
  = decimal (map (nibble_at (value t)) (positions start e))
  /\ asn1_value_integer t start e < 10 ^ (e - start).
Proof.
  intros Hwf Hs Hle He Hn Hd.
  unfold asn1_value_integer.
  rewrite (asn1_value_integer_run_positions t start e Hwf Hs Hle He).
  cbn [fst].
  pose proof (decimal_bound (map (nibble_at (value t)) (positions start e)) 0
                ltac:(lia)) as Hb.
  rewrite length_map, positions_length, Z.max_r in Hb by lia.
  fold (decimal (map (nibble_at (value t)) (positions start e))) in Hb.
  assert (Forall (fun d => 0 <= d <= 9)
            (map (nibble_at (value t)) (positions start e))) as Hall.
  { apply Forall_forall. intros d Hin. apply in_map_iff in Hin.
    destruct Hin as (k & <- & Hk). apply positions_In in Hk.
    apply Hd, Hk. }
  specialize (Hb Hall).
  assert (10 ^ (e - start) <= 10 ^ 19) by (apply Z.pow_le_mono_r; lia).
  rewrite Z.mod_small by (unfold ULONG_MOD; lia).
  split; [reflexivity | lia].
Qed.

Lemma asn1_value_integer_exact_witness :
  asn1_value_integer (mk_tlv 0x02 2 [0x12; 0x34]) 0 4
  = decimal (map (nibble_at [0x12; 0x34]) (positions 0 4))
  /\ asn1_value_integer (mk_tlv 0x02 2 [0x12; 0x34]) 0 4 < 10 ^ (4 - 0).
Proof.
  refine (asn1_value_integer_exact (mk_tlv 0x02 2 [0x12; 0x34]) 0 4
            _ _ _ _ _ _).
  - exact tlv_wf_1234.
  - lia.
  - simpl. lia.
  - unfold INT_MAX. lia.
  - lia.
  - intros k Hk.
    assert (k = 0 \/ k = 1 \/ k = 2 \/ k = 3) as Hc by lia.
    destruct Hc as [-> | [-> | [-> | ->]]]; vm_compute; split; discriminate.
Defined.

Lemma nibble_pairs_positions (bytes : list Z) (k : nat) (m : Z) :
  0 <= m -> (Z.to_nat m + k <= List.length bytes)%nat ->
  map (nibble_at bytes) (positions (m * 2) ((m + Z.of_nat k) * 2))
  = nibble_pairs (firstn k (skipn (Z.to_nat m) bytes)).
Proof.
  revert m. induction k as [| k IH]; intros m Hm Hk.
  - rewrite positions_nil by lia. reflexivity.
  - rewrite (positions_cons (m * 2)) by lia.
    rewrite (positions_cons (m * 2 + 1)) by lia.
    replace (m * 2 + 1 + 1) with ((m + 1) * 2) by lia.
    replace ((m + Z.of_nat (S k)) * 2) with ((m + 1 + Z.of_nat k) * 2) by lia.
    rewrite (skipn_cons_nth bytes (Z.to_nat m)) by lia.
    cbn [firstn map nibble_pairs flat_map app].
    destruct (nibble_at_even bytes m Hm) as [-> ->].
    f_equal. f_equal.
    rewrite (IH (m + 1)) by lia.
    replace (Z.to_nat (m + 1)) with (S (Z.to_nat m)) by lia.
    reflexivity.
Qed.

(** Over the full range the digits are all the nibbles of the value,
    high nibble first. *)
Lemma asn1_value_integer_full (t : tlv) :
  tlv_wf t -> 2 * len t <= INT_MAX ->
  asn1_value_integer t 0 (len t * 2)
  = decimal (nibble_pairs (value t)) mod ULONG_MOD.
Proof.
  intros Hwf Hint.
  pose proof Hwf as (Htag & Hlen & Hmax & Hbytes).
  destruct (Z.eq_dec (len t) 0) as [H0 | H0].
  - destruct (value t) as [| b bs]; [| simpl in Hlen; lia].
    unfold asn1_value_integer, asn1_value_integer_run. rewrite H0.
    reflexivity.
  - unfold asn1_value_integer.
    rewrite (asn1_value_integer_run_positions t 0 (len t * 2) Hwf) by lia.
    cbn [fst]. f_equal. f_equal.
    pose proof (nibble_pairs_positions (value t) (List.length (value t)) 0
                  ltac:(lia) ltac:(simpl; lia)) as Hp.
    cbn [Z.mul Z.add Z.to_nat skipn] in Hp.
    rewrite firstn_all, <- Hlen in Hp. exact Hp.
Qed.

(** X4.  For a node whose nibble count fits [int], the INTEGER
    formatter writes, after the indentation, "value: " and the decimal
    number that all the nibbles of the value write, high nibble first,
    modulo 2^64; an empty value prints 0. *)
Theorem asn1_tag_dump_integer_text (t : tlv) (tag : asn1_tag) (level : Z) :
  tlv_wf t -> 2 * len t <= INT_MAX ->
  asn1_tag_dump_integer t tag level
  = (PRINT_INDENT level ++ TAB ++ "value: " ++
     dec (decimal (nibble_pairs (value t)) mod ULONG_MOD) ++ NL)%string
  /\ (value t = [] ->
      asn1_tag_dump_integer t tag level
      = (PRINT_INDENT level ++ TAB ++ "value: " ++ "0" ++ NL)%string).
Proof.
  intros Hwf Hint. unfold asn1_tag_dump_integer.
  pose proof Hwf as (Htag & Hlen & Hmax & Hbytes).
  assert (to_uint (to_size_t (len t * 2)) = len t * 2) as ->.
  { unfold INT_MAX in Hint.
    unfold to_size_t, SIZE_MOD, to_uint, UINT_MOD.
    rewrite (Z.mod_small (len t * 2) (2 ^ 64)) by lia.
    apply Z.mod_small. lia. }
  rewrite (asn1_value_integer_full t Hwf Hint).
  split; [reflexivity |].
  intros ->. reflexivity.
Qed.

Lemma asn1_tag_dump_integer_text_witness :
  asn1_tag_dump_integer (mk_tlv 0x02 2 [0x12; 0x34]) no_tag 1
  = (PRINT_INDENT 1 ++ TAB ++ "value: " ++
     dec (decimal (nibble_pairs [0x12; 0x34]) mod ULONG_MOD) ++ NL)%string.
Proof.
  refine (proj1 (asn1_tag_dump_integer_text
                   (mk_tlv 0x02 2 [0x12; 0x34]) no_tag 1 _ _)).
  - exact tlv_wf_1234.
  - unfold INT_MAX. simpl. lia.
Defined.

(** X10.  Leading zero bytes do not change the decoded number.  For a
    well-formed node with [2 * (len + 1)] within [int], the value with a
    0x00 byte put in front decodes, over its full range, to the same
    result as the value itself over its full range. *)
Theorem asn1_value_integer_leading_zero (t : tlv) :
  tlv_wf t -> 2 * (len t + 1) <= INT_MAX ->
  asn1_value_integer (mk_tlv (tag t) (len t + 1) (0 :: value t))
    0 ((len t + 1) * 2)
  = asn1_value_integer t 0 (len t * 2).
Proof.
  intros Hwf Hint.
  pose proof Hwf as (Htag & Hlen & Hmax & Hbytes).
  assert (tlv_wf (mk_tlv (tag t) (len t + 1) (0 :: value t))) as Hwf'.
  { unfold tlv_wf, INT_MAX, PTRDIFF_MAX in *. cbn [tag len value].
    repeat split; try lia.
    - cbn [List.length]. lia.
    - constructor; [unfold is_byte; lia | exact Hbytes]. }
  pose proof (asn1_value_integer_full _ Hwf') as Hfull.
  cbn [tag len value] in Hfull.
  rewrite Hfull by exact Hint.
  rewrite (asn1_value_integer_full t Hwf) by lia.
  reflexivity.
Qed.

Lemma asn1_value_integer_leading_zero_witness :
  asn1_value_integer (mk_tlv 0x02 (2 + 1) (0 :: [0x12; 0x34])) 0 ((2 + 1) * 2)
  = asn1_value_integer (mk_tlv 0x02 2 [0x12; 0x34]) 0 (2 * 2).
Proof.
  refine (asn1_value_integer_leading_zero (mk_tlv 0x02 2 [0x12; 0x34]) _ _).
  - exact tlv_wf_1234.
  - unfold INT_MAX. simpl. lia.
Defined.

(** ** Indentation *)

Lemma concat_blanks_length (n : nat) :
  String.length (concat EmptyString (repeat "   "%string n)) = (3 * n)%nat.
Proof.
  induction n as [| n IH]; [reflexivity |].
  destruct n as [| n]; [reflexivity |].
  change (repeat "   "%string (S (S n)))
    with ("   "%string :: repeat "   "%string (S n)).
  change (concat EmptyString ("   "%string :: repeat "   "%string (S n)))
    with (String " " (String " " (String " "
            (concat EmptyString (repeat "   "%string (S n)))))).
  cbn [String.length]. rewrite IH. lia.
Qed.

(** X5.  [PRINT_INDENT] writes three characters per level and nothing
    for a level that is zero or negative. *)
Theorem PRINT_INDENT_length (level : Z) :
  Z.of_nat (String.length (PRINT_INDENT level)) = 3 * Z.max 0 level.
Proof.
  unfold PRINT_INDENT. rewrite concat_blanks_length. lia.
Qed.

(** ** Rank and lookup *)

(** X6.  Two 16-bit codes have the same rank exactly when they are
    equal or one of them is below 0x100 and the other is that code
    shifted left by 8 bits. *)
Theorem asn1_sort_tag_collision (a b : Z) :
  0 <= a <= TLV_TAG_MAX -> 0 <= b <= TLV_TAG_MAX ->
  (asn1_sort_tag a = asn1_sort_tag b
   <-> a = b \/ (a < 0x100 /\ b = Z.shiftl a 8)
       \/ (b < 0x100 /\ a = Z.shiftl b 8)).
Proof.
  unfold TLV_TAG_MAX. intros Ha Hb.
  rewrite !Z.shiftl_mul_pow2 by lia. change (2 ^ 8) with 256.
  assert (forall c, 0 <= c <= 65535 ->
            asn1_sort_tag c = if c <? 0x100 then c * 256 else c) as Hrank.
  { intros c Hc. destruct (Z.ltb_spec c 0x100).
    - apply asn1_sort_tag_low. lia.
    - apply asn1_sort_tag_high. unfold TLV_TAG_MAX. lia. }
  rewrite (Hrank a Ha), (Hrank b Hb).
  destruct (Z.ltb_spec a 0x100); destruct (Z.ltb_spec b 0x100); lia.
Qed.

Lemma asn1_sort_tag_collision_witness :
  asn1_sort_tag 0x30 = asn1_sort_tag 0x3000
  <-> 0x30 = 0x3000 \/ (0x30 < 0x100 /\ 0x3000 = Z.shiftl 0x30 8)
      \/ (0x3000 < 0x100 /\ 0x30 = Z.shiftl 0x3000 8).
Proof.
  apply (asn1_sort_tag_collision 0x30 0x3000); unfold TLV_TAG_MAX; lia.
Defined.

(** X7.  Every entry of the table is found again: looking up a node
    whose tag is the code of an entry returns that entry, with its name
    and category. *)
Theorem asn1_get_tag_entry (e : asn1_tag) (t : tlv) :
  In e asn1_tags -> tag t = atag e -> asn1_get_tag t = e.
Proof.
  intros He Ht.
  pose proof (asn1_tags_code_low e He) as Hl.
  destruct (asn1_get_tag_by_rank t) as (Hsame & _ & _);
    [unfold TLV_TAG_MAX; lia |].
  apply Hsame; [exact He |]. rewrite Ht. reflexivity.
Qed.

Lemma asn1_get_tag_entry_witness :
  asn1_get_tag (mk_tlv 0x0C 2 [0x41; 0x42])
  = mk_asn1_tag 0x0C "UTF8String" ASN1_TAG_STRING.
Proof.
  apply (asn1_get_tag_entry (mk_asn1_tag 0x0C "UTF8String" ASN1_TAG_STRING)
           (mk_tlv 0x0C 2 [0x41; 0x42])).
  - simpl. do 7 right. left. reflexivity.
  - reflexivity.
Defined.

(** ** Tree dump callback *)

(** X8.  A node whose 16-bit tag has the rank of no table entry is
    printed with the name 'Unknown ???', and when it is a leaf its
    value is raw-dumped: nothing of an unknown leaf is left out. *)
Theorem print_cb_unknown (oid : list Z -> Z -> string) (t : tlv)
    (level : Z) (is_leaf : bool) :
  0 <= tag t <= TLV_TAG_MAX ->
  (forall e : asn1_tag,
     In e asn1_tags -> asn1_sort_tag (atag e) <> asn1_sort_tag (tag t)) ->
  print_cb oid (Some t) level is_leaf
  = (true,
     Text ((PRINT_INDENT level ++ "--" ++ pad " " 2 (hex (tag t)) ++
            "[" ++ pad "0" 2 (hex (len t)) ++ "] '" ++ "Unknown ???" ++ "':")
           ++ NL)%string
     :: (if is_leaf then [Dump_buffer (value t) (len t) level] else [])).
Proof.
  intros Ht Hno.
  destruct (asn1_get_tag_by_rank t Ht) as (_ & Hnone & _).
  specialize (Hnone Hno).
  unfold print_cb, asn1_tag_dump. cbv zeta. rewrite Hnone.
  unfold to_ushort. rewrite Z.mod_small by (unfold TLV_TAG_MAX in Ht; lia).
  cbn [type name sentinel andb].
  rewrite andb_true_r. reflexivity.
Qed.

Lemma print_cb_unknown_witness :
  print_cb (fun _ _ => EmptyString) (Some (mk_tlv 0x9F02 1 [0x07])) 1 true
  = (true,
     [Text ((PRINT_INDENT 1 ++ "--" ++ pad " " 2 (hex 0x9F02) ++
             "[" ++ pad "0" 2 (hex 1) ++ "] '" ++ "Unknown ???" ++ "':")
            ++ NL)%string;
      Dump_buffer [0x07] 1 1]).
Proof.
  refine (print_cb_unknown (fun _ _ => EmptyString)
            (mk_tlv 0x9F02 1 [0x07]) 1 true _ _).
  - unfold TLV_TAG_MAX. simpl. lia.
  - intros e He. simpl in He.
    repeat (destruct He as [<- | He]; [vm_compute; discriminate |]).
    destruct He.
Defined.

(** X9.  A node whose tag is a table code shifted left by 8 bits is
    taken for the entry of that code: it is printed under that entry,
    and the raw dump of a leaf is left out when the entry's category has
    a formatter. *)
Theorem print_cb_shifted_code (oid : list Z -> Z -> string) (e : asn1_tag)
    (t : tlv) (level : Z) :
  In e asn1_tags -> tag t = Z.shiftl (atag e) 8 ->
  asn1_get_tag t = e
  /\ existsb is_raw_dump (snd (print_cb oid (Some t) level true))
     = negb (consumed (type e)).
Proof.
  intros He Ht.
  pose proof (asn1_tags_code_low e He) as Hl.
  rewrite Z.shiftl_mul_pow2 in Ht by lia. change (2 ^ 8) with 256 in Ht.
  assert (asn1_get_tag t = e) as Hget.
  { destruct (asn1_get_tag_by_rank t) as (Hsame & _ & _);
      [unfold TLV_TAG_MAX; lia |].
    apply Hsame; [exact He |].
    rewrite (asn1_sort_tag_low (atag e) Hl).
    destruct (Z.eq_dec (atag e) 0) as [H0 | H0].
    - rewrite Ht, H0. reflexivity.
    - rewrite asn1_sort_tag_high by (unfold TLV_TAG_MAX; lia). lia. }
  split; [exact Hget |].
  unfold print_cb, asn1_tag_dump. cbv zeta. rewrite Hget.
  destruct (type e); reflexivity.
Qed.

Lemma print_cb_shifted_code_witness :
  asn1_get_tag (mk_tlv 0x0100 1 [0x07])
  = mk_asn1_tag 0x01 "BOOLEAN" ASN1_TAG_BOOLEAN
  /\ existsb is_raw_dump
       (snd (print_cb (fun _ _ => EmptyString)
               (Some (mk_tlv 0x0100 1 [0x07])) 0 true))
     = negb (consumed ASN1_TAG_BOOLEAN).
Proof.
  refine (print_cb_shifted_code (fun _ _ => EmptyString)
            (mk_asn1_tag 0x01 "BOOLEAN" ASN1_TAG_BOOLEAN)
            (mk_tlv 0x0100 1 [0x07]) 0 _ _).
  - simpl. right. left. reflexivity.
  - reflexivity.
Defined.

(** With a null node [print_cb] writes "NULL" and, since
    [asn1_tag_dump] leaves [candump] true, goes on to [tlv->value] when
    the node is a leaf: a null leaf is dereferenced; a null node that is
    no leaf is not. *)
Lemma print_cb_null (oid : list Z -> Z -> string) (level : Z)
    (is_leaf : bool) :
  print_cb oid None level is_leaf
  = (true,
     Text ("NULL" ++ NL)%string
     :: (if is_leaf then [Null_dereference] else [])).
Proof. destruct is_leaf; reflexivity. Qed.

(** ** Signature decomposer: status and buffers *)

Lemma ecdsa_asn1_get_signature_ecdsa_sig_value_witness :
  ecdsa_asn1_get_signature (Some (ecdsa_sig_value (2 ^ 255 + 5) 7))
    (Z.of_nat (List.length (ecdsa_sig_value (2 ^ 255 + 5) 7)))
    (Some (repeat 0xAA 32)) (Some (repeat 0x55 32))
  = (0, Some (be_bytes 32 (2 ^ 255 + 5)), Some (be_bytes 32 7))
  /\ be_value (be_bytes 32 (2 ^ 255 + 5)) = 2 ^ 255 + 5
  /\ be_value (be_bytes 32 7) = 7.
Proof.
  refine (ecdsa_asn1_get_signature_ecdsa_sig_value (2 ^ 255 + 5) 7
            (repeat 0xAA 32) (repeat 0x55 32) _ _ _ _).
  - lia.
  - lia.
  - reflexivity.
  - reflexivity.
Defined.

(** X12.  The status is 1 exactly for a null argument or a zero
    [signaturelen]; otherwise it is 0, 2 or a negative mbedtls code. *)
Theorem ecdsa_asn1_get_signature_status (signature : option (list Z))
    (signaturelen : Z) (rval sval : option (list Z)) :
  (status (ecdsa_asn1_get_signature signature signaturelen rval sval) = 1
   <-> signature = None \/ signaturelen = 0 \/ rval = None \/ sval = None)
  /\ (status (ecdsa_asn1_get_signature signature signaturelen rval sval) = 0
      \/ status (ecdsa_asn1_get_signature signature signaturelen rval sval) = 1
      \/ status (ecdsa_asn1_get_signature signature signaturelen rval sval) = 2
      \/ status (ecdsa_asn1_get_signature signature signaturelen rval sval) < 0).
Proof.
  destruct signature as [sig |], rval as [r |], sval as [s |];
    try (split; [split; [intros _; auto | reflexivity]
                | right; left; reflexivity]).
  destruct (Z.eq_dec signaturelen 0) as [-> | Hlen].
  - split; [split; [intros _; auto | reflexivity]
           | right; left; reflexivity].
  - pose proof (status_by_cursor sig signaturelen r s Hlen) as Hs.
    assert (forall st : Z,
              st = 0 \/ st = 2 \/ st < 0 ->
              (st = 1 <-> None = Some sig \/ signaturelen = 0
                          \/ None = Some r \/ None = Some s)
              /\ (st = 0 \/ st = 1 \/ st = 2 \/ st < 0)) as Hcase.
    { intros st Hst. split; [| lia]. split; [lia |].
      intros [H | [H | [H | H]]];
        [discriminate H | contradiction | discriminate H | discriminate H]. }
    assert (forall A (x : A) (P : Prop),
              (None = Some x \/ P) <-> (Some x = None \/ P)) as Hsym.
    { intros A x P. split; intros [H | H]; auto; discriminate H. }
    destruct (cursor_after_integers sig signaturelen) as [p |].
    + destruct (Hcase (status (ecdsa_asn1_get_signature (Some sig)
                                 signaturelen (Some r) (Some s))))
        as [[H1 H2] H3].
      { rewrite Hs. destruct (signaturelen =? p); auto. }
      split; [| exact H3]. split.
      * intros H. exfalso. destruct (H1 H) as [H' | [H' | [H' | H']]];
          [discriminate H' | contradiction | discriminate H' | discriminate H'].
      * intros [H | [H | [H | H]]];
          [discriminate H | contradiction | discriminate H | discriminate H].
    + destruct (Hcase (status (ecdsa_asn1_get_signature (Some sig)
                                 signaturelen (Some r) (Some s))))
        as [[H1 H2] H3]; [auto |].
      split; [| exact H3]. split.
      * intros H. exfalso. destruct (H1 H) as [H' | [H' | [H' | H']]];
          [discriminate H' | contradiction | discriminate H' | discriminate H'].
      * intros [H | [H | [H | H]]];
          [discriminate H | contradiction | discriminate H | discriminate H].
Qed.

Lemma written_frame (X : Z) (buf : list Z) :
  (32 <= List.length buf)%nat ->
  List.length (be_bytes 32 X ++ skipn 32 buf) = List.length buf
  /\ skipn 32 (be_bytes 32 X ++ skipn 32 buf) = skipn 32 buf.
Proof.
  intros H. split.
  - rewrite length_app, be_bytes_length, length_skipn. lia.
  - rewrite skipn_app, be_bytes_length, Nat.sub_diag.
    rewrite (skipn_all2 (be_bytes 32 X)) by (rewrite be_bytes_length; lia).
    reflexivity.
Qed.

(** X13.  Whatever the input holds, each output buffer of at least 32
    bytes keeps its length and every byte from offset 32 on: the
    decomposer writes 32 bytes per value and nothing more. *)
Theorem ecdsa_asn1_get_signature_frame (sig : list Z) (signaturelen : Z)
    (rval sval : list Z) :
  (32 <= List.length rval)%nat -> (32 <= List.length sval)%nat ->
  exists r' s' : list Z,
    snd (fst (ecdsa_asn1_get_signature (Some sig) signaturelen
                (Some rval) (Some sval))) = Some r'
    /\ snd (ecdsa_asn1_get_signature (Some sig) signaturelen
              (Some rval) (Some sval)) = Some s'
    /\ List.length r' = List.length rval /\ skipn 32 r' = skipn 32 rval
    /\ List.length s' = List.length sval /\ skipn 32 s' = skipn 32 sval.
Proof.
  intros Hr Hs.
  pose proof (fun X => written_frame X rval Hr) as Fr.
  pose proof (fun X => written_frame X sval Hs) as Fs.
  unfold ecdsa_asn1_get_signature, mbedtls_mpi_write_binary.
  change (Z.to_nat 32) with 32%nat.
  destruct (signaturelen =? 0);
    [exists rval, sval; repeat split; reflexivity |].
  cbv zeta.
  destruct (mbedtls_asn1_get_tag sig 0 _ _) as [[p0 l] | c];
    [| exists rval, sval; repeat split; reflexivity].
  destruct (mbedtls_asn1_get_mpi sig p0 _) as [[p1 X] | c];
    [| exists rval, sval; repeat split; reflexivity].
  destruct (32 <? mbedtls_mpi_size X);
    [exists rval, sval; repeat split; reflexivity |].
  destruct (mbedtls_asn1_get_mpi sig p1 _) as [[p2 Y] | c];
    [| eexists; exists sval; cbn [fst snd];
       repeat split; try reflexivity; apply Fr].
  destruct (32 <? mbedtls_mpi_size Y);
    [eexists; exists sval; cbn [fst snd];
     repeat split; try reflexivity; apply Fr |].
  destruct (negb (0 + signaturelen =? p2));
    eexists; eexists; cbn [fst snd];
    (split; [reflexivity |]); (split; [reflexivity |]);
    repeat split; first [apply Fr | apply Fs].
Qed.

Lemma ecdsa_asn1_get_signature_frame_witness :
  exists r' s' : list Z,
    snd (fst (ecdsa_asn1_get_signature (Some (ecdsa_sig_value 1 2)) 8
                (Some (repeat 0xAA 40)) (Some (repeat 0x55 33)))) = Some r'
    /\ snd (ecdsa_asn1_get_signature (Some (ecdsa_sig_value 1 2)) 8
              (Some (repeat 0xAA 40)) (Some (repeat 0x55 33))) = Some s'
    /\ List.length r' = List.length (repeat 0xAA 40)
    /\ skipn 32 r' = skipn 32 (repeat 0xAA 40)
    /\ List.length s' = List.length (repeat 0x55 33)
    /\ skipn 32 s' = skipn 32 (repeat 0x55 33).
Proof.
  refine (ecdsa_asn1_get_signature_frame (ecdsa_sig_value 1 2) 8
            (repeat 0xAA 40) (repeat 0x55 33) _ _); simpl; lia.
Defined.

(** X14.  The buffers on failure: a negative status leaves [sval] as it
    was, and the trailing-data status 2 is returned only after both
    values have been written in full. *)
Theorem ecdsa_asn1_get_signature_partial (sig : list Z) (signaturelen : Z)
    (rval sval : list Z) :
  signaturelen <> 0 ->
  (status (ecdsa_asn1_get_signature (Some sig) signaturelen
             (Some rval) (Some sval)) < 0 ->
   snd (ecdsa_asn1_get_signature (Some sig) signaturelen
          (Some rval) (Some sval)) = Some sval)
  /\ (status (ecdsa_asn1_get_signature (Some sig) signaturelen
                (Some rval) (Some sval)) = 2 ->
      exists p0 l p1 X p2 Y : Z,
        mbedtls_asn1_get_tag sig 0 signaturelen 0x30 = Ok (p0, l)
        /\ mbedtls_asn1_get_mpi sig p0 signaturelen = Ok (p1, X)
        /\ mbedtls_asn1_get_mpi sig p1 signaturelen = Ok (p2, Y)
        /\ p2 <> signaturelen
        /\ ecdsa_asn1_get_signature (Some sig) signaturelen
             (Some rval) (Some sval)
           = (2, Some (be_bytes 32 X ++ skipn 32 rval),
                 Some (be_bytes 32 Y ++ skipn 32 sval))).
Proof.
  intros Hlen.
  unfold status, ecdsa_asn1_get_signature, mbedtls_mpi_write_binary.
  change (Z.lor MBEDTLS_ASN1_CONSTRUCTED MBEDTLS_ASN1_SEQUENCE) with 0x30.
  change (Z.to_nat 32) with 32%nat.
  destruct (Z.eqb_spec signaturelen 0) as [? | _]; [contradiction |].
  cbv zeta. rewrite Z.add_0_l.
  destruct (mbedtls_asn1_get_tag sig 0 signaturelen 0x30)
    as [[p0 l] | c] eqn:E0.
  2:{ apply mbedtls_asn1_get_tag_neg in E0. cbn [fst snd].
      split; [reflexivity | lia]. }
  destruct (mbedtls_asn1_get_mpi sig p0 signaturelen) as [[p1 X] | c] eqn:E1.
  2:{ apply mbedtls_asn1_get_mpi_neg in E1. cbn [fst snd].
      split; [reflexivity | lia]. }
  destruct (32 <? mbedtls_mpi_size X).
  { cbn [fst snd]. split; [reflexivity | discriminate]. }
  destruct (mbedtls_asn1_get_mpi sig p1 signaturelen) as [[p2 Y] | c] eqn:E2.
  2:{ apply mbedtls_asn1_get_mpi_neg in E2. cbn [fst snd].
      split; [reflexivity | lia]. }
  destruct (32 <? mbedtls_mpi_size Y).
  { cbn [fst snd]. split; [reflexivity | discriminate]. }
  destruct (Z.eqb_spec signaturelen p2) as [Heq | Hne]; cbn [negb fst snd].
  - split; [lia | discriminate].
  - split; [lia |]. intros _.
    exists p0, l, p1, X, p2, Y. repeat split; try assumption.
    intros H. apply Hne. symmetry. exact H.
Qed.

Lemma ecdsa_asn1_get_signature_partial_witness :
  snd (ecdsa_asn1_get_signature (Some [0x30; 6; 2; 1; 1; 4; 1; 2]) 8
         (Some (repeat 0xAA 32)) (Some (repeat 0x55 32)))
  = Some (repeat 0x55 32).
Proof.
  refine (proj1 (ecdsa_asn1_get_signature_partial
                   [0x30; 6; 2; 1; 1; 4; 1; 2] 8
                   (repeat 0xAA 32) (repeat 0x55 32) _) _).
  - discriminate.
  - vm_compute. reflexivity.
Defined.

(** ** The [int] counter beyond [INT_MAX] *)





Lemma tlv_wf_repeat (code b : Z) (n : Z) :
  0 <= code <= TLV_TAG_MAX -> is_byte b -> 0 <= n <= PTRDIFF_MAX ->
  tlv_wf (mk_tlv code n (repeat b (Z.to_nat n))).
Proof.
  intros Hc Hb Hn. unfold tlv_wf. cbn [tag len value].
  rewrite repeat_length, Z2Nat.id by lia.
  repeat split; try lia.
  apply Forall_forall. intros x Hx. apply repeat_spec in Hx. subst x.
  exact Hb.
Qed.




(** While the counter stays within [int] the loop goes on: [n] steps
    from a non-negative [i] take it to [i + 2 * n], and what was read
    before stays read. *)
Lemma asn1_value_integer_loop_steps (n : nat) :
  forall (fuel : nat) (t : tlv) (e i ret : Z) (reads : list Z),
    0 <= i < 2 ^ 31 -> i + 2 * Z.of_nat n <= 2 ^ 31 ->
    i + 2 * Z.of_nat n <= e -> e < 2 ^ 32 -> (n <= fuel)%nat ->
    exists (ret' : Z) (reads' : list Z),
      asn1_value_integer_loop fuel t e i ret reads
      = asn1_value_integer_loop (fuel - n) t e
          (to_int (i + 2 * Z.of_nat n)) ret' (reads ++ reads')%list.
Proof.
  induction n as [| m IH]; intros fuel t e i ret reads Hi H31 He H32 Hf.
  - exists ret, []. rewrite Nat.sub_0_r, app_nil_r.
    replace (i + 2 * Z.of_nat 0) with i by lia.
    rewrite to_int_small by lia. reflexivity.
  - destruct fuel as [| fuel]; [lia |].
    cbn [asn1_value_integer_loop].
    assert ((to_uint i <? to_uint (e - 1)) = true) as ->.
    { unfold to_uint, UINT_MOD. rewrite !Z.mod_small by lia.
      apply Z.ltb_lt. lia. }
    destruct m as [| m].
    + eexists. exists [Z.quot i 2; Z.quot i 2].
      replace (S fuel - 1)%nat with fuel by lia.
      replace (i + 2 * Z.of_nat 1) with (i + 2) by lia. reflexivity.
    + rewrite (to_int_small (i + 2)) by lia.
      destruct (IH fuel t e (i + 2)
                  (to_ulong
                     (to_ulong
                        (to_ulong (to_ulong (ret * 10)
                                   + Z.shiftr (rd (value t) (Z.quot i 2)) 4)
                         * 10)
                      + Z.land (rd (value t) (Z.quot i 2)) 0xf))
                  (reads ++ [Z.quot i 2; Z.quot i 2])%list)
        as (ret' & reads' & E); try lia.
      exists ret', ([Z.quot i 2; Z.quot i 2] ++ reads')%list.
      rewrite E. cbn [Nat.sub].
      replace (i + 2 + 2 * Z.of_nat (S m)) with (i + 2 * Z.of_nat (S (S m)))
        by lia.
      rewrite <- app_assoc. reflexivity.
Qed.

(** The loop only adds to the indices read. *)
Lemma asn1_value_integer_loop_reads_prefix (fuel : nat) :
  forall (t : tlv) (e i ret : Z) (reads : list Z),
    exists tail : list Z,
      snd (asn1_value_integer_loop fuel t e i ret reads)
      = (reads ++ tail)%list.
Proof.
  induction fuel as [| fuel IH]; intros t e i ret reads;
    cbn [asn1_value_integer_loop];
    destruct (to_uint i <? to_uint (e - 1)).
  - exists []. rewrite app_nil_r. reflexivity.
  - exists []. rewrite app_nil_r. reflexivity.
  - destruct (IH t e (to_int (i + 2))
                (to_ulong
                   (to_ulong
                      (to_ulong (to_ulong (ret * 10)
                                 + Z.shiftr (rd (value t) (Z.quot i 2)) 4)
                       * 10)
                    + Z.land (rd (value t) (Z.quot i 2)) 0xf))
                (reads ++ [Z.quot i 2; Z.quot i 2])%list) as (tail & E).
    exists ([Z.quot i 2; Z.quot i 2] ++ tail)%list.
    rewrite E, <- app_assoc. reflexivity.
  - exists []. rewrite app_nil_r. reflexivity.
Qed.

(** X17.  The call the INTEGER formatter makes, [start = 0] and
    [end = 2 * len], on a well-formed node with [2^30 < len < 2^31]:
    after [2^30] steps the [int] counter passes [INT_MAX], and the next
    step reads [tlv->value[-2^30]], in front of the buffer. *)
Theorem asn1_value_integer_full_range_wraps (t : tlv) :
  tlv_wf t -> 2 ^ 30 < len t < 2 ^ 31 ->
  In (- 2 ^ 30) (asn1_value_integer_reads t 0 (len t * 2)).
Proof.
  intros (Htag & Hlen & Hmax & Hbytes) Hl.
  unfold asn1_value_integer_reads, asn1_value_integer_run.
  unfold to_size_t, SIZE_MOD. rewrite (Z.mod_small (len t * 2)) by lia.
  rewrite Z.gtb_ltb, Z.ltb_irrefl.
  destruct (Z.geb_spec 0 (len t * 2)) as [Hge | _]; [lia |].
  replace (negb (Z.land 0 1 =? 0)) with false by reflexivity.
  replace (to_int 0) with 0 by reflexivity.
  destruct (asn1_value_integer_loop_steps (Z.to_nat (2 ^ 30))
              (Z.to_nat (len t * 2)) t (len t * 2) 0 0 [])
    as (ret' & reads' & E); try lia.
  rewrite E. clear E.
  replace (0 + 2 * Z.of_nat (Z.to_nat (2 ^ 30))) with (2 ^ 31) by lia.
  replace (to_int (2 ^ 31)) with (- 2 ^ 31) by reflexivity.
  replace (Z.to_nat (len t * 2) - Z.to_nat (2 ^ 30))%nat
    with (S (Z.to_nat (len t * 2 - 2 ^ 30 - 1))) by lia.
  cbn [asn1_value_integer_loop].
  assert ((to_uint (- 2 ^ 31) <? to_uint (len t * 2 - 1)) = true) as ->.
  { replace (to_uint (- 2 ^ 31)) with (2 ^ 31) by reflexivity.
    unfold to_uint, UINT_MOD. rewrite Z.mod_small by lia.
    apply Z.ltb_lt. lia. }
  replace (Z.quot (- 2 ^ 31) 2) with (- 2 ^ 30) by reflexivity.
  match goal with
  | |- context [asn1_value_integer_loop ?f ?t ?e ?i ?r ?rs] =>
      destruct (asn1_value_integer_loop_reads_prefix f t e i r rs)
        as (tail & E);
      destruct (asn1_value_integer_loop f t e i r rs) as ((i' & r') & rs')
  end.
  cbn [snd] in E. subst rs'.
  assert (In (- 2 ^ 30)
            ((([] ++ reads') ++ [- 2 ^ 30; - 2 ^ 30]) ++ tail)%list) as Hin.
  { apply in_or_app. left. apply in_or_app. right. left. reflexivity. }
  destruct (negb (Z.land (len t * 2) 1 =? 0)); cbn [snd].
  - apply in_or_app. left. exact Hin.
  - exact Hin.
Qed.

Lemma asn1_value_integer_full_range_wraps_witness :
  In (- 2 ^ 30)
    (asn1_value_integer_reads
       (mk_tlv 0x02 (2 ^ 30 + 1) (repeat 0x11 (Z.to_nat (2 ^ 30 + 1))))
       0
       (len (mk_tlv 0x02 (2 ^ 30 + 1) (repeat 0x11 (Z.to_nat (2 ^ 30 + 1))))
        * 2)).
Proof.
  refine (asn1_value_integer_full_range_wraps
            (mk_tlv 0x02 (2 ^ 30 + 1) (repeat 0x11 (Z.to_nat (2 ^ 30 + 1))))
            _ _).
  - apply tlv_wf_repeat.
    + unfold TLV_TAG_MAX. lia.
    + unfold is_byte. lia.
    + unfold PTRDIFF_MAX. lia.
  - cbn [len]. lia.
Defined.
